(** * snapbtrfs: calendar boundaries and snapshot retention

    A shallow embedding of [snapbtrfs.py] (classes [DateTimeUtil],
    [ExistingSnapshot], [ExistingSnapshotsCollection] and the decision part of
    [main]) together with the properties stated about it.

    Aware [datetime] values are kept the way CPython keeps them: the wall-clock
    fields of the value's own fixed-offset [tzinfo], here folded into one count
    of microseconds since 0001-01-01T00:00:00 on that wall clock, next to the
    offset itself.  The bounds [MINYEAR]/[MAXYEAR] of the library are not
    modelled: arithmetic is over all of [Z]. *)

From Stdlib Require Import ZArith List Bool Lia Arith String Ascii Sorted Permutation.
Import ListNotations.
Local Open Scope Z_scope.

(** ** Durations, in microseconds (the resolution of [datetime.timedelta]) *)

Definition US_PER_SECOND : Z := 1000000.
Definition US_PER_MINUTE : Z := 60 * US_PER_SECOND.
Definition US_PER_HOUR : Z := 60 * US_PER_MINUTE.
Definition US_PER_DAY : Z := 24 * US_PER_HOUR.

(** [datetime.timedelta(hours=n)] and [datetime.timedelta(days=n)]. *)
Definition timedelta_hours (n : Z) : Z := n * US_PER_HOUR.
Definition timedelta_days (n : Z) : Z := n * US_PER_DAY.
Definition timedelta_minutes (n : Z) : Z := n * US_PER_MINUTE.

(** ** The proleptic Gregorian calendar of [datetime] *)

Module Calendar.

Definition DI400Y : Z := 146097.
Definition DI100Y : Z := 36524.
Definition DI4Y : Z := 1461.

Definition DAYS_IN_MONTH : list Z :=
  [-1; 31; 28; 31; 30; 31; 30; 31; 31; 30; 31; 30; 31].
Definition DAYS_BEFORE_MONTH : list Z :=
  [-1; 0; 31; 59; 90; 120; 151; 181; 212; 243; 273; 304; 334].

Definition is_leap (year : Z) : bool :=
  (year mod 4 =? 0) && (negb (year mod 100 =? 0) || (year mod 400 =? 0)).

Definition days_before_year (year : Z) : Z :=
  let y := year - 1 in y * 365 + y / 4 - y / 100 + y / 400.

Definition days_before_month (year month : Z) : Z :=
  nth (Z.to_nat month) DAYS_BEFORE_MONTH 0
  + (if (month >? 2) && is_leap year then 1 else 0).

Definition ymd2ord (year month day : Z) : Z :=
  days_before_year year + days_before_month year month + day.

(** [_ord2ymd]: ordinal (0001-01-01 is day 1) to (year, month, day). *)
Definition ord2ymd (ordinal : Z) : Z * Z * Z :=
  let n := ordinal - 1 in
  let n400 := n / DI400Y in
  let n := n mod DI400Y in
  let year := n400 * 400 + 1 in
  let n100 := n / DI100Y in
  let n := n mod DI100Y in
  let n4 := n / DI4Y in
  let n := n mod DI4Y in
  let n1 := n / 365 in
  let n := n mod 365 in
  let year := year + (n100 * 100 + n4 * 4 + n1) in
  if (n1 =? 4) || (n100 =? 4) then (year - 1, 12, 31)
  else
    let leapyear := (n1 =? 3) && (negb (n4 =? 24) || (n100 =? 3)) in
    let month := Z.shiftr (n + 50) 5 in
    let preceding :=
      nth (Z.to_nat month) DAYS_BEFORE_MONTH 0
      + (if (month >? 2) && leapyear then 1 else 0) in
    if preceding >? n then
      let month := month - 1 in
      let preceding :=
        preceding
        - (nth (Z.to_nat month) DAYS_IN_MONTH 0
           + (if (month =? 2) && leapyear then 1 else 0)) in
      (year, month, n - preceding + 1)
    else (year, month, n - preceding + 1).

End Calendar.

(** ** Aware datetimes *)

Record datetime : Type := mkDatetime {
  wall : Z;     (* microseconds on the value's own wall clock *)
  utcoff : Z    (* [tzinfo.utcoffset], in microseconds *)
}.

(** The absolute instant: what [==], [<] and [>=] of two aware datetimes
    compare. *)
Definition instant (ts : datetime) : Z := wall ts - utcoff ts.

Definition dt_eqb (a b : datetime) : bool := instant a =? instant b.
Definition dt_ltb (a b : datetime) : bool := instant a <? instant b.
Definition dt_geb (a b : datetime) : bool := instant a >=? instant b.

Definition toordinal (ts : datetime) : Z := wall ts / US_PER_DAY + 1.
Definition year (ts : datetime) : Z := fst (fst (Calendar.ord2ymd (toordinal ts))).
Definition month (ts : datetime) : Z := snd (fst (Calendar.ord2ymd (toordinal ts))).
Definition day (ts : datetime) : Z := snd (Calendar.ord2ymd (toordinal ts)).
Definition hour (ts : datetime) : Z := (wall ts / US_PER_HOUR) mod 24.
Definition minute (ts : datetime) : Z := (wall ts / US_PER_MINUTE) mod 60.
Definition second (ts : datetime) : Z := (wall ts / US_PER_SECOND) mod 60.
Definition microsecond (ts : datetime) : Z := wall ts mod US_PER_SECOND.
Definition weekday (ts : datetime) : Z := (toordinal ts + 6) mod 7.

(** [datetime.datetime(y, m, d, H, M, S, us, tzinfo=timezone(off))]. *)
Definition mk_datetime (y m d hh mi ss us off : Z) : datetime :=
  {| wall := (Calendar.ymd2ord y m d - 1) * US_PER_DAY + hh * US_PER_HOUR
             + mi * US_PER_MINUTE + ss * US_PER_SECOND + us;
     utcoff := off |}.

(** [ts.replace(minute=0, second=0, microsecond=0)]: the fields of [ts]'s own
    wall clock are overwritten, the [tzinfo] is kept. *)
Definition replace_minute_second_microsecond_0 (ts : datetime) : datetime :=
  {| wall := wall ts / US_PER_HOUR * US_PER_HOUR; utcoff := utcoff ts |}.

(** [ts - delta] and [ts + delta] for a fixed-offset [tzinfo]. *)
Definition dt_sub (ts : datetime) (delta : Z) : datetime :=
  {| wall := wall ts - delta; utcoff := utcoff ts |}.
Definition dt_add (ts : datetime) (delta : Z) : datetime :=
  {| wall := wall ts + delta; utcoff := utcoff ts |}.

(** The five period keys of [PERIOD_KEYS]. *)
Inductive period : Type := hourly | daily | weekly | monthly | yearly.

Definition PERIOD_KEYS : list period := [hourly; daily; weekly; monthly; yearly].

(** ** class DateTimeUtil

    [ts.astimezone()] converts to the system's local zone.  The zone is a
    parameter: [localoff u] is the local UTC offset in force at the absolute
    instant [u]. *)

Section DateTimeUtil.

Variable localoff : Z -> Z.

Definition astimezone (ts : datetime) : datetime :=
  let u := instant ts in {| wall := u + localoff u; utcoff := localoff u |}.

Definition round_beginning_hour (ts : datetime) : datetime :=
  replace_minute_second_microsecond_0 ts.

Definition round_beginning_day (ts : datetime) : datetime :=
  let ts := round_beginning_hour ts in
  let local := astimezone ts in
  if hour local =? 0 then ts
  else
    let ts := dt_sub ts (timedelta_hours (hour local)) in
    let local := astimezone ts in
    if hour local =? 0 then ts
    else if hour local =? 1 then dt_sub ts (timedelta_hours 1)
    else dt_add ts (timedelta_hours 1).

Definition round_beginning_week (ts : datetime) : datetime :=
  let ts := round_beginning_day ts in
  let local := astimezone ts in
  let weekday := weekday local in
  if weekday =? 0 then ts
  else
    let ts := dt_sub ts (timedelta_hours (24 * (weekday - 1) + 12)) in
    round_beginning_day ts.

Definition round_beginning_month (ts : datetime) : datetime :=
  let ts := round_beginning_day ts in
  let local := astimezone ts in
  if day local =? 1 then ts
  else
    let ts := dt_sub ts (timedelta_hours (24 * (day local - 2) + 12)) in
    round_beginning_day ts.

Definition round_beginning_year (ts : datetime) : datetime :=
  let ts := round_beginning_day ts in
  let local := astimezone ts in
  if (month local =? 1) && (day local =? 1) then ts
  else
    let yday := toordinal local - Calendar.ymd2ord (year local) 1 1 in
    let ts := dt_sub ts (timedelta_hours (24 * (yday - 1) + 12)) in
    round_beginning_day ts.

Definition prev_hour (ts : datetime) : datetime :=
  if negb ((minute ts =? 0) && (second ts =? 0) && (microsecond ts =? 0))
  then round_beginning_hour ts
  else dt_sub ts (timedelta_hours 1).

Definition prev_day (ts : datetime) : datetime :=
  let local := astimezone ts in
  if negb ((hour local =? 0) && (minute local =? 0) && (second local =? 0)
           && (microsecond local =? 0))
  then round_beginning_day ts
  else round_beginning_day (dt_sub ts (timedelta_hours 12)).

Definition prev_week (ts : datetime) : datetime :=
  let local := astimezone ts in
  if negb ((weekday local =? 0) && (hour local =? 0) && (minute local =? 0)
           && (second local =? 0) && (microsecond local =? 0))
  then round_beginning_week ts
  else round_beginning_week (dt_sub ts (timedelta_days 1)).

Definition prev_month (ts : datetime) : datetime :=
  let local := astimezone ts in
  if negb ((day local =? 1) && (hour local =? 0) && (minute local =? 0)
           && (second local =? 0) && (microsecond local =? 0))
  then round_beginning_month ts
  else round_beginning_month (dt_sub ts (timedelta_days 1)).

Definition prev_year (ts : datetime) : datetime :=
  let local := astimezone ts in
  if negb ((month local =? 1) && (day local =? 1) && (hour local =? 0)
           && (minute local =? 0) && (second local =? 0)
           && (microsecond local =? 0))
  then round_beginning_year ts
  else round_beginning_year (dt_sub ts (timedelta_days 1)).

(** [map_prev_period] and [prev_period]: dispatch on the period key. *)
Definition prev_period (p : period) (ts : datetime) : datetime :=
  match p with
  | hourly => prev_hour ts
  | daily => prev_day ts
  | weekly => prev_week ts
  | monthly => prev_month ts
  | yearly => prev_year ts
  end.

(** The rounding that belongs to each period key (the functions
    [round_beginning_*] have no dispatch table of their own in the source). *)
Definition round_beginning (p : period) (ts : datetime) : datetime :=
  match p with
  | hourly => round_beginning_hour ts
  | daily => round_beginning_day ts
  | weekly => round_beginning_week ts
  | monthly => round_beginning_month ts
  | yearly => round_beginning_year ts
  end.

End DateTimeUtil.

(** ** A concrete local zone

    Central European with the daylight-saving period of 2019, the zone
    the repository's tests are written for: UTC+1, and UTC+2 from
    2019-03-31T01:00Z until 2019-10-27T01:00Z. *)

Definition utc_instant (y m d hh mi ss us : Z) : Z :=
  instant (mk_datetime y m d hh mi ss us 0).

Definition cet_2019 (u : Z) : Z :=
  if (utc_instant 2019 3 31 1 0 0 0 <=? u) && (u <? utc_instant 2019 10 27 1 0 0 0)
  then timedelta_hours 2
  else timedelta_hours 1.

Definition utc (y m d hh mi ss us : Z) : datetime :=
  mk_datetime y m d hh mi ss us 0.

(** ** [datetime.strptime(ts_str, "%Y-%m-%d %H:%M:%S %z")]

    The zero-padded form [YYYY-mm-dd HH:MM:SS +HHMM] that [btrfs subvolume show]
    prints is recognised; anything else is rejected ([ValueError] in Python). *)

Module Strptime.

Definition digit (c : ascii) : option Z :=
  let n := Z.of_nat (nat_of_ascii c) in
  if (48 <=? n) && (n <=? 57) then Some (n - 48) else None.

(** Reads exactly [k] decimal digits. *)
Fixpoint number (k : nat) (acc : Z) (s : string) : option (Z * string) :=
  match k with
  | O => Some (acc, s)
  | S k' =>
      match s with
      | String c s' =>
          match digit c with
          | Some d => number k' (10 * acc + d) s'
          | None => None
          end
      | EmptyString => None
      end
  end.

Definition literal (c : ascii) (s : string) : option string :=
  match s with
  | String c' s' => if Ascii.eqb c c' then Some s' else None
  | EmptyString => None
  end.

Definition sign (s : string) : option (Z * string) :=
  match s with
  | String c s' =>
      if Ascii.eqb c "+" then Some (1, s')
      else if Ascii.eqb c "-" then Some (-1, s')
      else None
  | EmptyString => None
  end.

Definition bind {A B : Type} (x : option A) (f : A -> option B) : option B :=
  match x with Some a => f a | None => None end.

Notation "' pat <- e ;; k" :=
  (bind e (fun x => match x with pat => k end))
  (at level 61, pat pattern, e at next level, right associativity).

Definition strptime (ts_str : string) : option datetime :=
  '(y, s) <- number 4 0 ts_str ;;
  's <- literal "-" s ;;
  '(m, s) <- number 2 0 s ;;
  's <- literal "-" s ;;
  '(d, s) <- number 2 0 s ;;
  's <- literal " " s ;;
  '(hh, s) <- number 2 0 s ;;
  's <- literal ":" s ;;
  '(mi, s) <- number 2 0 s ;;
  's <- literal ":" s ;;
  '(ss, s) <- number 2 0 s ;;
  's <- literal " " s ;;
  '(sg, s) <- sign s ;;
  '(zh, s) <- number 2 0 s ;;
  '(zm, s) <- number 2 0 s ;;
  match s with
  | EmptyString =>
      Some (mk_datetime y m d hh mi ss 0
              (sg * (timedelta_hours zh + timedelta_minutes zm)))
  | _ => None
  end.

End Strptime.

(** ** class ExistingSnapshot *)

Record ExistingSnapshot : Type := mkExistingSnapshot {
  ts : datetime;
  key : datetime;
  is_kept : bool
}.

(** [ExistingSnapshot(ts=ts)]: the key is [ts] rounded to the beginning of its
    hour, and the snapshot starts unkept. *)
Definition ExistingSnapshot_init (ts : datetime) : ExistingSnapshot :=
  {| ts := ts; key := round_beginning_hour ts; is_kept := false |}.

(** [ExistingSnapshot(ts_str=ts_str)]. *)
Definition ExistingSnapshot_of_str (ts_str : string) : option ExistingSnapshot :=
  option_map ExistingSnapshot_init (Strptime.strptime ts_str).

(** [__lt__] and [__eq__] (completed by [functools.total_ordering]). *)
Definition snap_lt (self other : ExistingSnapshot) : bool :=
  dt_ltb (key self) (key other).
Definition snap_eq (self other : ExistingSnapshot) : bool :=
  dt_eqb (key self) (key other).

Definition keep (self : ExistingSnapshot) : ExistingSnapshot :=
  {| ts := ts self; key := key self; is_kept := true |}.

(** ** [list.sort(key=...)] and [bisect.bisect_left] *)

(** [list.sort] is stable; it is modelled by insertion sort, which places an
    element before the first element whose key is not smaller. *)
Fixpoint insert_by_key (x : ExistingSnapshot) (l : list ExistingSnapshot)
  : list ExistingSnapshot :=
  match l with
  | [] => [x]
  | y :: l' =>
      if dt_ltb (key y) (key x) then y :: insert_by_key x l' else x :: y :: l'
  end.

Definition sort_by_key (l : list ExistingSnapshot) : list ExistingSnapshot :=
  fold_right insert_by_key [] l.

(** The loop of [bisect_left]; [fuel] bounds the number of iterations. *)
Fixpoint bisect_loop (fuel : nat) (a : list ExistingSnapshot)
  (x : ExistingSnapshot) (lo hi : nat) : nat :=
  match fuel with
  | O => lo
  | S fuel' =>
      if (lo <? hi)%nat then
        let mid := ((lo + hi) / 2)%nat in
        match nth_error a mid with
        | Some a_mid =>
            if snap_lt a_mid x then bisect_loop fuel' a x (mid + 1)%nat hi
            else bisect_loop fuel' a x lo mid
        | None => lo
        end
      else lo
  end.

Definition bisect_left (a : list ExistingSnapshot) (x : ExistingSnapshot) : nat :=
  bisect_loop (List.length a) a x 0%nat (List.length a).

(** ** class ExistingSnapshotsCollection *)

Record ExistingSnapshotsCollection : Type := mkCollection {
  collection : list ExistingSnapshot;
  sorted : bool
}.

Definition empty_collection : ExistingSnapshotsCollection :=
  {| collection := []; sorted := true |}.

Definition add (self : ExistingSnapshotsCollection) (snap : ExistingSnapshot)
  : ExistingSnapshotsCollection :=
  {| collection := collection self ++ [snap]; sorted := false |}.

Definition sort (self : ExistingSnapshotsCollection) : ExistingSnapshotsCollection :=
  if sorted self then self
  else {| collection := sort_by_key (collection self); sorted := true |}.

(** [snap.keep()] on the object stored at position [i]. *)
Fixpoint keep_nth (i : nat) (l : list ExistingSnapshot) : list ExistingSnapshot :=
  match l, i with
  | [], _ => []
  | x :: l', O => keep x :: l'
  | x :: l', S i' => x :: keep_nth i' l'
  end.

Definition keep_at (i : nat) (self : ExistingSnapshotsCollection)
  : ExistingSnapshotsCollection :=
  {| collection := keep_nth i (collection self); sorted := sorted self |}.

(** [find_oldest_in_window]: the snapshot found is an object of the
    collection, returned here as its position in the (now sorted) list,
    together with the collection as the call leaves it. *)
Definition find_oldest_in_window (self : ExistingSnapshotsCollection)
  (begin end_ : datetime) : option nat * ExistingSnapshotsCollection :=
  let self := sort self in
  let index := bisect_left (collection self) (ExistingSnapshot_init begin) in
  if (List.length (collection self) <=? index)%nat then (None, self)
  else
    match nth_error (collection self) index with
    | Some snap => if dt_ltb (key snap) end_ then (Some index, self) else (None, self)
    | None => (None, self)
    end.

(** The snapshot object that [find_oldest_in_window] returns. *)
Definition find_oldest_snapshot (self : ExistingSnapshotsCollection)
  (begin end_ : datetime) : option ExistingSnapshot :=
  let '(r, self) := find_oldest_in_window self begin end_ in
  match r with
  | Some i => nth_error (collection self) i
  | None => None
  end.

Section Collection.

Variable localoff : Z -> Z.

(** The guard of the loop of [mark_period]. *)
Definition mark_guard (self : ExistingSnapshotsCollection) (end_ : datetime)
  (nb_kept : Z) : bool :=
  (nb_kept >? 0)
  && match collection self with
     | [] => false
     | first :: _ => dt_geb end_ (ts first)
     end.

(** The [while] loop of [mark_period].  [None] means that [fuel] iterations
    were not enough to make the guard fail. *)
Fixpoint mark_loop (fuel : nat) (self : ExistingSnapshotsCollection)
  (p : period) (end_ : datetime) (nb_kept : Z)
  : option ExistingSnapshotsCollection :=
  if mark_guard self end_ nb_kept then
    match fuel with
    | O => None
    | S fuel' =>
        let begin := prev_period localoff p end_ in
        let '(snap, self) := find_oldest_in_window self begin end_ in
        match snap with
        | Some i => mark_loop fuel' (keep_at i self) p begin (nb_kept - 1)
        | None => mark_loop fuel' self p begin nb_kept
        end
    end
  else Some self.

Definition mark_period (fuel : nat) (self : ExistingSnapshotsCollection)
  (now : datetime) (p : period) (nb_kept : Z)
  : option ExistingSnapshotsCollection :=
  mark_loop fuel (sort self) p now nb_kept.

Definition has_snapshop_in_last_period (self : ExistingSnapshotsCollection)
  (now : datetime) (p : period) : bool * ExistingSnapshotsCollection :=
  let '(r, self) := find_oldest_in_window self (prev_period localoff p now) now in
  (match r with Some _ => true | None => false end, self).

(** *** The decision part of [main]

    [volume_cfg] is the per-volume dictionary restricted to the period
    keys: [None] is an absent key. *)
Definition volume_cfg : Type := period -> option Z.

Definition cfg_get (cfg : volume_cfg) (p : period) (default : Z) : Z :=
  match cfg p with Some n => n | None => default end.

(** [all(has_snapshop_in_last_period(now, period) for period in PERIOD_KEYS
    if volume_cfg.get(period, 0) > 0)]: the generator is consumed until the
    first false element. *)
Fixpoint all_have_snapshot (self : ExistingSnapshotsCollection) (now : datetime)
  (cfg : volume_cfg) (periods : list period)
  : bool * ExistingSnapshotsCollection :=
  match periods with
  | [] => (true, self)
  | p :: periods' =>
      if cfg_get cfg p 0 >? 0 then
        let '(b, self) := has_snapshop_in_last_period self now p in
        if b then all_have_snapshot self now cfg periods' else (false, self)
      else all_have_snapshot self now cfg periods'
  end.

(** [for period in PERIOD_KEYS: if period in volume_cfg: mark_period(...)]. *)
Fixpoint mark_all (fuel : nat) (self : ExistingSnapshotsCollection)
  (now : datetime) (cfg : volume_cfg) (periods : list period)
  : option ExistingSnapshotsCollection :=
  match periods with
  | [] => Some self
  | p :: periods' =>
      match cfg p with
      | Some n =>
          match mark_period fuel self now p n with
          | Some self' => mark_all fuel self' now cfg periods'
          | None => None
          end
      | None => mark_all fuel self now cfg periods'
      end
  end.

(** Lines 400-409 of [main]: whether a snapshot is taken, and the
    collection with its marks. *)
Definition main_decide (fuel : nat) (self : ExistingSnapshotsCollection)
  (now : datetime) (cfg : volume_cfg)
  : option (bool * ExistingSnapshotsCollection) :=
  let '(all_ok, self) := all_have_snapshot self now cfg PERIOD_KEYS in
  if negb all_ok then
    option_map (fun c => (true, c)) (mark_all fuel self now cfg PERIOD_KEYS)
  else Some (false, self).

End Collection.

(** The collection that [main] and the tests build: one [add] per snapshot. *)
Definition collection_of (snaps : list ExistingSnapshot)
  : ExistingSnapshotsCollection :=
  fold_left add snaps empty_collection.

Definition kept_flags (self : ExistingSnapshotsCollection) : list bool :=
  map is_kept (collection self).

(** ** Vocabulary of the properties

    Nothing below this line is code of the program: these are the notions the
    statements about it are written with. *)

Ltac dlia := Z.to_euclidean_division_equations; lia.

Ltac unfold_time :=
  unfold timedelta_hours, timedelta_days, timedelta_minutes in *;
  change US_PER_DAY with 86400000000 in *;
  change US_PER_HOUR with 3600000000 in *;
  change US_PER_MINUTE with 60000000 in *;
  change US_PER_SECOND with 1000000 in *.

Ltac split_eqb :=
  repeat match goal with
    | |- context [?x =? ?c] => destruct (Z.eqb_spec x c); try (exfalso; lia)
    end; cbn [orb andb negb].

Ltac step_goal :=
  split_eqb;
  (split; [lia|split; [intros; try reflexivity; lia|]]);
  first [ left; repeat split; try reflexivity; intros; lia
        | right; split; [lia|split;[lia|left; lia]]
        | right; split; [lia|split;[lia|right; split; [lia|reflexivity]]] ].

Ltac level x d :=
  let E := fresh "E" in let B := fresh "B" in
  pose proof (Z.div_mod x d ltac:(lia)) as E;
  pose proof (Z.mod_pos_bound x d ltac:(lia)) as B.

(** *** The calendar, year by year

    [decomp] names what [_ord2ymd] computes on the way: the year, the index of
    the day in its year, and whether the year is a leap year; [month_day] is
    the tail of [_ord2ymd] that turns the index into month and day. *)

Definition month_day (n : Z) (leapyear : bool) : Z * Z :=
  let month := Z.shiftr (n + 50) 5 in
  let preceding :=
    nth (Z.to_nat month) Calendar.DAYS_BEFORE_MONTH 0
    + (if (month >? 2) && leapyear then 1 else 0) in
  if preceding >? n then
    let month := month - 1 in
    let preceding :=
      preceding
      - (nth (Z.to_nat month) Calendar.DAYS_IN_MONTH 0
         + (if (month =? 2) && leapyear then 1 else 0)) in
    (month, n - preceding + 1)
  else (month, n - preceding + 1).

Record ydecomp := { yd_year : Z; yd_idx : Z; yd_leap : bool; yd_special : bool }.

Definition decomp (ordinal : Z) : ydecomp :=
  let n := ordinal - 1 in
  let n400 := n / 146097 in
  let n := n mod 146097 in
  let n100 := n / 36524 in
  let n := n mod 36524 in
  let n4 := n / 1461 in
  let n := n mod 1461 in
  let n1 := n / 365 in
  let n := n mod 365 in
  let year := n400 * 400 + 1 + (n100 * 100 + n4 * 4 + n1) in
  let sp := (n1 =? 4) || (n100 =? 4) in
  {| yd_year := if sp then year - 1 else year;
     yd_idx := if sp then 365 else n;
     yd_leap := if sp then true else (n1 =? 3) && (negb (n4 =? 24) || (n100 =? 3));
     yd_special := sp |}.

Definition md (k : Z) (leap : bool) : Z * Z :=
  if k =? 365 then (12, 31) else month_day k leap.

Definition md_ok (k : Z) (leap : bool) : bool :=
  let '(m, d) := md k leap in
  let '(m', d') := md (k + 1) leap in
  (1 <=? d)
  && (negb ((k <=? 363) || ((k =? 364) && leap))
      || (d' =? d + 1) || ((d' =? 1) && negb (d =? 1)))
  && (negb (364 <=? k) || negb (d =? 1))
  && Bool.eqb ((m =? 1) && (d =? 1)) (k =? 0).

(** The position of a day in its week, month and year (0 on the first day). *)
Definition pos_week (n : Z) : Z := (n + 6) mod 7.
Definition pos_month (n : Z) : Z := snd (Calendar.ord2ymd n) - 1.
Definition pos_year (n : Z) : Z :=
  n - Calendar.ymd2ord (fst (fst (Calendar.ord2ymd n))) 1 1.


(** A position function counts up by one a day and falls back to 0, never
    twice in a row. *)
Definition period_pos (pos : Z -> Z) : Prop :=
  (forall n, 0 <= pos n)
  /\ (forall n, pos (n + 1) = pos n + 1 \/ (pos (n + 1) = 0 /\ pos n <> 0)).

(** *** Rounding on whole hours

    With offsets that are whole hours, the rounding functions only ever see
    instants [U] hours after the epoch, and a zone is [oh]: the offset in hours
    at the hour [U]. *)

Definition hl_local (oh : Z -> Z) (U : Z) : Z := U + oh U.
Definition hl_date (oh : Z -> Z) (U : Z) : Z := hl_local oh U / 24 + 1.

Definition hl_round_day (oh : Z -> Z) (U : Z) : Z :=
  let h := hl_local oh U mod 24 in
  if h =? 0 then U
  else
    let U1 := U - h in
    let h1 := hl_local oh U1 mod 24 in
    if h1 =? 0 then U1 else if h1 =? 1 then U1 - 1 else U1 + 1.

Definition hl_round_period (oh : Z -> Z) (pos : Z -> Z) (U : Z) : Z :=
  let r := hl_round_day oh U in
  let p := pos (hl_date oh r) in
  if p =? 0 then r else hl_round_day oh (r - (24 * (p - 1) + 12)).

Definition day_boundary (oh : Z -> Z) (U : Z) : Prop := hl_local oh U mod 24 = 0.
Definition period_boundary (oh : Z -> Z) (pos : Z -> Z) (U : Z) : Prop :=
  day_boundary oh U /\ pos (hl_date oh U) = 0.

Definition hl_zone (oh : Z -> Z) : Prop :=
  exists std : Z,
    (forall U, oh U = std \/ oh U = std + 1)
    /\ (forall a b c, a <= b <= c -> c <= a + 24 -> oh b = oh a \/ oh b = oh c)
    /\ (forall U, oh (U - 1) <> oh U ->
                  hl_local oh (U - 1) mod 24 <> 23 /\ hl_local oh U mod 24 <> 0).


(** *** Zones and datetimes with whole-hour offsets *)

Definition whole_hour (ts : datetime) : Prop := utcoff ts mod US_PER_HOUR = 0.

(** The aware datetime of offset [off] that lies [U] hours after the epoch. *)
Definition at_hour (off U : Z) : datetime :=
  {| wall := U * US_PER_HOUR + off; utcoff := off |}.

Definition utc_at (u : Z) : datetime := {| wall := u; utcoff := 0 |}.

Definition hour_index (ts : datetime) : Z := instant ts / US_PER_HOUR.

(** A zone with one daylight-saving hour: the offset is a whole number of
    hours and takes two values one hour apart; it changes on whole hours
    only, at most once in any 24 hours, and never so that the local hour 0 is
    skipped or repeated (the local clock does not read 23 just before a
    change, nor 0 just after). *)
Definition dst_zone (localoff : Z -> Z) : Prop :=
  exists std : Z,
    (forall u, localoff u = timedelta_hours std
               \/ localoff u = timedelta_hours (std + 1))
    /\ (forall u, localoff u = localoff (u / US_PER_HOUR * US_PER_HOUR))
    /\ (forall a b c, a <= b <= c -> c <= a + timedelta_hours 24 ->
                      localoff b = localoff a \/ localoff b = localoff c)
    /\ (forall u, u mod US_PER_HOUR = 0 ->
                  localoff (u - US_PER_HOUR) <> localoff u ->
                  hour (astimezone localoff (utc_at (u - US_PER_HOUR))) <> 23
                  /\ hour (astimezone localoff (utc_at u)) <> 0).

(** The zone seen on whole hours. *)
Definition hour_offsets (localoff : Z -> Z) (U : Z) : Z :=
  localoff (U * US_PER_HOUR) / US_PER_HOUR.

Definition hl_round (oh : Z -> Z) (p : period) (U : Z) : Z :=
  match p with
  | hourly => U
  | daily => hl_round_day oh U
  | weekly => hl_round_period oh pos_week U
  | monthly => hl_round_period oh pos_month U
  | yearly => hl_round_period oh pos_year U
  end.

(** The boundaries of each period on whole hours, and the step back that the
    [prev_*] functions take from a boundary. *)
Definition hl_boundary (oh : Z -> Z) (p : period) (U : Z) : Prop :=
  match p with
  | hourly => True
  | daily => day_boundary oh U
  | weekly => period_boundary oh pos_week U
  | monthly => period_boundary oh pos_month U
  | yearly => period_boundary oh pos_year U
  end.

Definition hl_prev (oh : Z -> Z) (p : period) (U : Z) : Z :=
  match p with
  | hourly => U - 1
  | daily => hl_round_day oh (U - 12)
  | weekly => hl_round_period oh pos_week (U - 24)
  | monthly => hl_round_period oh pos_month (U - 24)
  | yearly => hl_round_period oh pos_year (U - 24)
  end.

(** [t] lies exactly on a boundary of the period: every local field that the
    rounding would zero is zero already. *)
Definition on_boundary (localoff : Z -> Z) (p : period) (t : datetime) : bool :=
  let local := astimezone localoff t in
  let clock := (minute local =? 0) && (second local =? 0)
               && (microsecond local =? 0) in
  match p with
  | hourly => clock
  | daily => (hour local =? 0) && clock
  | weekly => (weekday local =? 0) && (hour local =? 0) && clock
  | monthly => (day local =? 1) && (hour local =? 0) && clock
  | yearly => (month local =? 1) && (day local =? 1) && (hour local =? 0) && clock
  end.


Ltac bool_eq :=
  repeat match goal with
    | |- context [Z.eqb ?a ?b] =>
        let x := fresh "b" in set (x := Z.eqb a b); clearbody x
    end;
  repeat match goal with x : bool |- _ => destruct x end;
  reflexivity.

(** *** The scenarios of the tests *)

(** A timestamp with the offset +0100. *)
Definition plus0100 (y m d hh mi ss : Z) : datetime :=
  mk_datetime y m d hh mi ss 0 (timedelta_hours 1).

(** The snapshots of [test_mark_period], in the order the test adds them. *)
Definition mark_period_timestamps : list string :=
  ["2019-11-07 08:07:42 +0100"; "2019-12-01 07:52:42 +0100";
   "2019-12-13 10:47:42 +0100"; "2019-12-15 19:47:42 +0100";
   "2019-12-16 09:47:42 +0100"; "2019-12-22 07:47:42 +0100";
   "2019-12-24 04:47:42 +0100"; "2019-12-24 17:47:42 +0100";
   "2019-12-25 11:03:32 +0100"; "2019-12-26 13:00:24 +0100";
   "2019-12-26 14:01:17 +0100"; "2019-12-26 15:02:42 +0100"]%string.

(** The snapshots of [test_find_oldest_in_window], likewise. *)
Definition find_oldest_timestamps : list string :=
  ["2019-12-26 15:02:42 +0100"; "2019-12-26 13:00:24 +0100";
   "2019-12-24 02:47:42 +0100"; "2019-12-25 11:03:32 +0100";
   "2019-12-01 07:52:42 +0100"; "2019-12-26 14:01:17 +0100";
   "2019-11-07 08:02:42 +0100"]%string.

(** [snap_collection.add(ExistingSnapshot(ts_str=ts_str))] for each string. *)
Fixpoint add_all (self : ExistingSnapshotsCollection) (strs : list string)
  : option ExistingSnapshotsCollection :=
  match strs with
  | [] => Some self
  | ts_str :: strs' =>
      match ExistingSnapshot_of_str ts_str with
      | Some snap => add_all (add self snap) strs'
      | None => None
      end
  end.

(** What a test reads off a collection: each timestamp with its mark. *)
Definition marks (self : ExistingSnapshotsCollection) : list (datetime * bool) :=
  map (fun snap => (ts snap, is_kept snap)) (collection self).

Definition bind_opt {A B : Type} (x : option A) (f : A -> option B) : option B :=
  match x with Some a => f a | None => None end.

(** A query on the collection of [test_find_oldest_in_window]. *)
Definition find_oldest_scenario (begin end_ : datetime) : option (option ExistingSnapshot) :=
  option_map (fun c => find_oldest_snapshot c begin end_)
    (add_all empty_collection find_oldest_timestamps).

(** *** Marks *)

(** [a] and [b] are the same snapshot, and [b] is kept if [a] is. *)
Definition snap_le (a b : ExistingSnapshot) : Prop :=
  ts a = ts b /\ key a = key b /\ (is_kept a = true -> is_kept b = true).

(** The same collection, with at least the same snapshots kept. *)
Definition marks_le (c1 c2 : ExistingSnapshotsCollection) : Prop :=
  sorted c1 = sorted c2 /\ Forall2 snap_le (collection c1) (collection c2).



(** The collection of [test_mark_period]. *)
Definition mark_period_collection : ExistingSnapshotsCollection :=
  match add_all empty_collection mark_period_timestamps with
  | Some c => c
  | None => empty_collection
  end.

(** *** Keys *)

(** The order of the keys, and the test for a given key. *)
Definition key_le (a b : ExistingSnapshot) : Prop :=
  instant (key a) <= instant (key b).

Definition has_key (k : Z) (snap : ExistingSnapshot) : bool :=
  instant (key snap) =? k.

(** The key that [find_oldest_in_window] searches for: the key of the probe
    [ExistingSnapshot(ts=begin)]. *)
Definition probe_key (begin : datetime) : Z :=
  instant (key (ExistingSnapshot_init begin)).

(** The invariant of the [sorted] flag. *)
Definition sorted_ok (c : ExistingSnapshotsCollection) : Prop :=
  sorted c = true -> StronglySorted key_le (collection c).

(** [volume_cfg.get(period, 0) > 0]. *)
Definition enabled (cfg : volume_cfg) (p : period) : bool := cfg_get cfg p 0 >? 0.

(** *** What [main] keeps and deletes *)

(** The number of snapshots marked 'to be kept'. *)
Definition count_kept (c : ExistingSnapshotsCollection) : nat :=
  List.length (filter is_kept (collection c)).



(** The month does not change from one day of a year to the next unless the
    next day is the first of its month. *)
Definition md_same_month (k : Z) (leap : bool) : bool :=
  let '(m, d) := md k leap in
  let '(m', d') := md (k + 1) leap in
  (d' =? 1) || (m' =? m).

(** The snapshot [a], kept if [a] or [b] is; position by position, the
    collection [c1] with the marks of [c2] added. *)
Definition join_snap (a b : ExistingSnapshot) : ExistingSnapshot :=
  {| ts := ts a; key := key a; is_kept := is_kept a || is_kept b |}.

Fixpoint join_list (l1 l2 : list ExistingSnapshot) : list ExistingSnapshot :=
  match l1, l2 with
  | a :: l1', b :: l2' => join_snap a b :: join_list l1' l2'
  | _, _ => []
  end.

Definition join_marks (c1 c2 : ExistingSnapshotsCollection)
  : ExistingSnapshotsCollection :=
  {| collection := join_list (collection c1) (collection c2); sorted := sorted c1 |}.

(** A local zone in which daylight saving begins at local midnight: UTC-3,
    and UTC-2 from 2018-11-04T03:00Z, when the local clock goes from 00:00
    straight to 01:00 (Brazil in 2018). *)
Definition brt_2018 (u : Z) : Z :=
  if utc_instant 2018 11 4 3 0 0 0 <=? u
  then timedelta_hours (-2)
  else timedelta_hours (-3).

(** * Properties *)

(** ** The calendar *)

Lemma ord2ymd_decomp n :
  Calendar.ord2ymd n =
  (yd_year (decomp n), fst (md (yd_idx (decomp n)) (yd_leap (decomp n))),
   snd (md (yd_idx (decomp n)) (yd_leap (decomp n)))).
Proof.
  unfold Calendar.ord2ymd, decomp, md, month_day.
  change Calendar.DI400Y with 146097. change Calendar.DI100Y with 36524.
  change Calendar.DI4Y with 1461.
  cbv zeta.
  set (sp := (_ =? 4) || (_ =? 4)).
  destruct sp; cbn [yd_year yd_idx yd_leap yd_special].
  - reflexivity.
  - set (k := ((((n - 1) mod 146097) mod 36524) mod 1461) mod 365).
    assert (Hk : (k =? 365) = false) by (apply Z.eqb_neq; subst k; dlia).
    rewrite Hk.
    match goal with |- context [if ?c then _ else _] => destruct c end; reflexivity.
Qed.

Lemma div_succ x d :
  0 < d ->
  ((x + 1) / d = x / d /\ (x + 1) mod d = x mod d + 1 /\ x mod d + 1 < d)
  \/ (x mod d = d - 1 /\ (x + 1) mod d = 0 /\ (x + 1) / d = x / d + 1).
Proof.
  intros Hd.
  pose proof (Z.div_mod x d ltac:(lia)) as E.
  pose proof (Z.mod_pos_bound x d Hd) as B.
  destruct (Z.eq_dec (x mod d) (d - 1)) as [e|ne].
  - right. split; [exact e|]. split; symmetry.
    + apply (Z.mod_unique (x + 1) d (x / d + 1) 0); lia.
    + apply (Z.div_unique (x + 1) d (x / d + 1) 0); lia.
  - left. split; [|split; [|lia]]; symmetry.
    + apply (Z.div_unique (x + 1) d (x / d) (x mod d + 1)); lia.
    + apply (Z.mod_unique (x + 1) d (x / d) (x mod d + 1)); lia.
Qed.

Lemma decomp_step n :
  let a := decomp n in let b := decomp (n + 1) in
  0 <= yd_idx a <= 365 /\
  (yd_idx a = 365 -> yd_leap a = true) /\
  ((yd_idx b = yd_idx a + 1 /\ yd_leap b = yd_leap a /\ yd_year b = yd_year a
    /\ (yd_idx a = 364 -> yd_leap a = true))
   \/ (yd_idx b = 0 /\ yd_year b = yd_year a + 1 /\
       (yd_idx a = 365 \/ (yd_idx a = 364 /\ yd_leap a = false)))).
Proof.
  unfold decomp. cbv zeta. cbn [yd_year yd_idx yd_leap yd_special].
  replace (n + 1 - 1) with (n - 1 + 1) by lia.
  generalize (n - 1). clear n. intros m.
  level m 146097.
  destruct (div_succ m 146097 ltac:(lia)) as [[Eq [Er Lt]]|[Er [Er' Eq]]];
    rewrite Eq; [rewrite Er|rewrite Er'];
    set (q := m / 146097) in *; set (r := m mod 146097) in *; clearbody q r;
    level r 36524.
  - destruct (div_succ r 36524 ltac:(lia)) as [[Eq1 [Er1 Lt1]]|[Er1 [Er1' Eq1]]];
      rewrite Eq1; [rewrite Er1|rewrite Er1'];
      set (a1 := r / 36524) in *; set (b1 := r mod 36524) in *; clearbody a1 b1;
      level b1 1461.
    + destruct (div_succ b1 1461 ltac:(lia)) as [[Eq2 [Er2 Lt2]]|[Er2 [Er2' Eq2]]];
        rewrite Eq2; [rewrite Er2|rewrite Er2'];
        set (a2 := b1 / 1461) in *; set (b2 := b1 mod 1461) in *; clearbody a2 b2;
        level b2 365.
      * destruct (div_succ b2 365 ltac:(lia)) as [[Eq3 [Er3 Lt3]]|[Er3 [Er3' Eq3]]];
          rewrite Eq3; [rewrite Er3|rewrite Er3'];
          set (a3 := b2 / 365) in *; set (b3 := b2 mod 365) in *; clearbody a3 b3.
        -- step_goal.
        -- step_goal.
      * change (0 / 365) with 0. change (0 mod 365) with 0.
        set (a3 := b2 / 365) in *; set (b3 := b2 mod 365) in *; clearbody a3 b3.
        step_goal.
    + change (0 / 1461) with 0. change (0 mod 1461) with 0.
      change (0 / 365) with 0. change (0 mod 365) with 0.
      level b1 1461.
      set (a2 := b1 / 1461) in *; set (b2 := b1 mod 1461) in *; clearbody a2 b2.
      level b2 365.
      set (a3 := b2 / 365) in *; set (b3 := b2 mod 365) in *; clearbody a3 b3.
      step_goal.
  - change (0 / 36524) with 0. change (0 mod 36524) with 0.
    change (0 / 1461) with 0. change (0 mod 1461) with 0.
    change (0 / 365) with 0. change (0 mod 365) with 0.
    set (a1 := r / 36524) in *; set (b1 := r mod 36524) in *; clearbody a1 b1.
    level b1 1461.
    set (a2 := b1 / 1461) in *; set (b2 := b1 mod 1461) in *; clearbody a2 b2.
    level b2 365.
    set (a3 := b2 / 365) in *; set (b3 := b2 mod 365) in *; clearbody a3 b3.
    step_goal.
Qed.

Lemma days_before_month_1 y : Calendar.days_before_month y 1 = 0.
Proof. reflexivity. Qed.

Lemma year_start q a1 a2 a3 :
  0 <= a1 <= 3 -> 0 <= a2 <= 24 -> 0 <= a3 <= 3 ->
  Calendar.days_before_year (q * 400 + 1 + (a1 * 100 + a2 * 4 + a3))
  = 146097 * q + 36524 * a1 + 1461 * a2 + 365 * a3.
Proof.
  intros H1 H2 H3. unfold Calendar.days_before_year. cbv zeta.
  set (y := q * 400 + 1 + (a1 * 100 + a2 * 4 + a3) - 1).
  assert (E400 : y / 400 = q) by (subst y; dlia).
  assert (E100 : y / 100 = 4 * q + a1) by (subst y; dlia).
  assert (E4 : y / 4 = 100 * q + 25 * a1 + a2) by (subst y; dlia).
  rewrite E400, E100, E4. subst y. lia.
Qed.

Lemma yday_idx n :
  n - Calendar.ymd2ord (yd_year (decomp n)) 1 1 = yd_idx (decomp n).
Proof.
  unfold Calendar.ymd2ord. rewrite days_before_month_1.
  unfold decomp. cbv zeta. cbn [yd_year yd_idx yd_leap yd_special].
  level (n - 1) 146097.
  set (q := (n - 1) / 146097) in *; set (r := (n - 1) mod 146097) in *; clearbody q r.
  level r 36524.
  set (a1 := r / 36524) in *; set (b1 := r mod 36524) in *; clearbody a1 b1.
  level b1 1461.
  set (a2 := b1 / 1461) in *; set (b2 := b1 mod 1461) in *; clearbody a2 b2.
  level b2 365.
  set (a3 := b2 / 365) in *; set (b3 := b2 mod 365) in *; clearbody a3 b3.
  destruct (Z.eqb_spec a3 4) as [e3|e3]; [|destruct (Z.eqb_spec a1 4) as [e1|e1]];
    cbn [orb].
  - replace (q * 400 + 1 + (a1 * 100 + a2 * 4 + a3) - 1)
      with (q * 400 + 1 + (a1 * 100 + a2 * 4 + 3)) by lia.
    rewrite year_start by lia. lia.
  - replace (q * 400 + 1 + (a1 * 100 + a2 * 4 + a3) - 1)
      with (q * 400 + 1 + (3 * 100 + 24 * 4 + 3)) by lia.
    rewrite year_start by lia. lia.
  - rewrite year_start by lia. lia.
Qed.

Lemma md_table k leap : 0 <= k <= 365 -> md_ok k leap = true.
Proof.
  intros Hk.
  assert (A : forallb (fun i => md_ok (Z.of_nat i) true && md_ok (Z.of_nat i) false)
                (seq 0 366) = true) by (vm_compute; reflexivity).
  rewrite forallb_forall in A.
  specialize (A (Z.to_nat k)). rewrite Z2Nat.id in A by lia.
  assert (I : In (Z.to_nat k) (seq 0 366)) by (apply in_seq; lia).
  apply A in I. apply andb_true_iff in I. destruct leap; tauto.
Qed.

Lemma pos_week_ok : period_pos pos_week.
Proof. unfold period_pos, pos_week. split; intros n; dlia. Qed.

Lemma pos_year_idx n : pos_year n = yd_idx (decomp n).
Proof. unfold pos_year. rewrite ord2ymd_decomp. cbn [fst snd]. apply yday_idx. Qed.

Lemma pos_year_ok : period_pos pos_year.
Proof.
  split; intros n; rewrite ?pos_year_idx; pose proof (decomp_step n) as S;
    cbv zeta in S; lia.
Qed.

Lemma md_table_prop k leap :
  0 <= k <= 365 ->
  1 <= snd (md k leap)
  /\ (k <= 363 \/ (k = 364 /\ leap = true) ->
      snd (md (k + 1) leap) = snd (md k leap) + 1
      \/ (snd (md (k + 1) leap) = 1 /\ snd (md k leap) <> 1))
  /\ (364 <= k -> snd (md k leap) <> 1)
  /\ (fst (md k leap) = 1 /\ snd (md k leap) = 1 <-> k = 0).
Proof.
  intros Hk. pose proof (md_table k leap Hk) as T. unfold md_ok in T.
  destruct (md k leap) as [m d]. destruct (md (k + 1) leap) as [m' d'].
  cbn [fst snd].
  repeat (apply andb_true_iff in T; destruct T as [T ?]).
  apply eqb_prop in H.
  destruct (Z.leb_spec 1 d); [|discriminate].
  split; [assumption|]. split; [|split].
  - intros C.
    destruct (Z.eqb_spec d' (d + 1)); [left; assumption|].
    destruct (Z.eqb_spec d' 1), (Z.eqb_spec d 1); cbn in *;
      try (right; split; assumption).
    all: exfalso; destruct C as [C|[C1 C2]];
      [ destruct (Z.leb_spec k 363); [discriminate|lia]
      | subst leap; destruct (Z.eqb_spec k 364); [|lia];
        destruct (k <=? 363); discriminate ].
  - intros C E. subst d. destruct (Z.leb_spec 364 k); [discriminate|lia].
  - destruct (Z.eqb_spec m 1), (Z.eqb_spec d 1), (Z.eqb_spec k 0);
      cbn in *; try discriminate; intuition lia.
Qed.

Lemma pos_month_ok : period_pos pos_month.
Proof.
  assert (P : forall n, 1 <= snd (Calendar.ord2ymd n)
              /\ (snd (Calendar.ord2ymd (n + 1)) = snd (Calendar.ord2ymd n) + 1
                  \/ (snd (Calendar.ord2ymd (n + 1)) = 1
                      /\ snd (Calendar.ord2ymd n) <> 1))).
  { intros n. rewrite !ord2ymd_decomp. cbn [fst snd].
    pose proof (decomp_step n) as (R & L & S). cbv zeta in *.
    set (a := decomp n) in *. set (b := decomp (n + 1)) in *.
    pose proof (md_table_prop (yd_idx a) (yd_leap a) R) as (T1 & T2 & T3 & _).
    split; [exact T1|].
    destruct S as [(Ei & El & _ & E364)|(Ei & _ & Ea)].
    - rewrite Ei, El. apply T2.
      pose proof (decomp_step (n + 1)) as (R' & _). cbv zeta in R'. fold b in R'.
      destruct (Z.eq_dec (yd_idx a) 364); [right; auto|left; lia].
    - rewrite Ei.
      pose proof (md_table_prop 0 (yd_leap b) ltac:(lia)) as (_ & _ & _ & T0).
      right. split; [apply T0; reflexivity|apply T3; lia]. }
  split; intros n; unfold pos_month; pose proof (P n); lia.
Qed.

Lemma jan1_iff n :
  (snd (fst (Calendar.ord2ymd n)) =? 1) && (snd (Calendar.ord2ymd n) =? 1)
  = (pos_year n =? 0).
Proof.
  rewrite pos_year_idx, ord2ymd_decomp. cbn [fst snd].
  pose proof (decomp_step n) as (R & _). cbv zeta in R.
  pose proof (md_table_prop _ (yd_leap (decomp n)) R) as (_ & _ & _ & T).
  destruct (md (yd_idx (decomp n)) (yd_leap (decomp n))) as [m d].
  cbn [fst snd] in *.
  destruct (Z.eqb_spec m 1), (Z.eqb_spec d 1), (Z.eqb_spec (yd_idx (decomp n)) 0);
    cbn; try reflexivity; intuition lia.
Qed.

(** ** Rounding on whole hours *)

Section HourLevel.

Variable oh : Z -> Z.
Hypothesis zone : hl_zone oh.

Local Abbreviation L := (hl_local oh).
Local Abbreviation rdh := (hl_round_day oh).
Local Abbreviation Bd := (day_boundary oh).

Lemma oh_diff a b : -1 <= oh a - oh b <= 1.
Proof. destruct zone as (std & R & _). destruct (R a), (R b); lia. Qed.

Lemma L_mono a b : a <= b -> L a <= L b.
Proof.
  intros H. destruct (Z.eq_dec a b) as [->|ne]; [lia|].
  unfold hl_local. pose proof (oh_diff a b). lia.
Qed.

Lemma midnight_inj a b : Bd a -> Bd b -> L a = L b -> a = b.
Proof.
  unfold day_boundary. intros Ba Bb E.
  destruct zone as (std & R & _ & M).
  destruct (Z.lt_trichotomy a b) as [Lt|[Eq|Gt]]; [|assumption|]; exfalso.
  - assert (b = a + 1) by (unfold hl_local in E; pose proof (oh_diff a b); lia).
    subst b. specialize (M (a + 1)). replace (a + 1 - 1) with a in M by lia.
    unfold hl_local in *. assert (oh a <> oh (a + 1)) by lia. tauto.
  - assert (a = b + 1) by (unfold hl_local in E; pose proof (oh_diff a b); lia).
    subst a. specialize (M (b + 1)). replace (b + 1 - 1) with b in M by lia.
    unfold hl_local in *. assert (oh b <> oh (b + 1)) by lia. tauto.
Qed.

Lemma rdh_spec U :
  Bd (rdh U) /\ rdh U <= U /\ L U - L (rdh U) = L U mod 24.
Proof.
  unfold day_boundary, hl_round_day. cbv zeta.
  destruct zone as (std & R & S & M).
  set (h := L U mod 24).
  assert (Hh : 0 <= h < 24) by (subst h; dlia).
  destruct (Z.eqb_spec h 0) as [E0|E0].
  - fold h. lia.
  - set (U1 := U - h). set (h1 := L U1 mod 24).
    pose proof (oh_diff U U1) as D.
    assert (Hh1 : h1 = 0 \/ (h1 = 1 /\ oh U1 = oh U + 1) \/ (h1 = 23 /\ oh U1 = oh U - 1)).
    { subst h1 h U1. unfold hl_local in *. dlia. }
    destruct Hh1 as [H0|[[H1 O1]|[H23 O23]]].
    + rewrite H0. cbn. fold h1. unfold hl_local in *. subst U1 h1 h. dlia.
    + rewrite H1. cbn.
      assert (oh (U1 - 1) = oh U1).
      { destruct (S (U1 - 1) U1 U) as [e|e]; subst U1; lia. }
      unfold hl_local in *. subst U1 h1 h. dlia.
    + rewrite H23. cbn.
      assert (oh (U1 + 1) = oh U1).
      { destruct (Z.eq_dec (oh (U1 + 1)) (oh U1)) as [e|ne]; [assumption|exfalso].
        specialize (M (U1 + 1)). replace (U1 + 1 - 1) with U1 in M by lia.
        destruct M as [M1 _]; [congruence|]. apply M1. exact H23. }
      unfold hl_local in *. subst U1 h1 h. dlia.
Qed.

Lemma rdh_greatest U b : Bd b -> b <= U -> b <= rdh U.
Proof.
  intros Bb Hb. pose proof (rdh_spec U) as (Br & Hr & E).
  destruct (Z.le_gt_cases b (rdh U)) as [|Gt]; [assumption|exfalso].
  assert (L (rdh U) <= L b <= L U) by (split; apply L_mono; lia).
  assert (L b = L (rdh U)).
  { unfold day_boundary in *. dlia. }
  assert (b = rdh U) by (apply midnight_inj; auto). lia.
Qed.

Lemma rdh_date U : hl_date oh (rdh U) = hl_date oh U.
Proof.
  pose proof (rdh_spec U) as (Br & _ & E). unfold hl_date, day_boundary in *. dlia.
Qed.

Lemma date_mono a b : a <= b -> hl_date oh a <= hl_date oh b.
Proof. intros H. apply L_mono in H. unfold hl_date. dlia. Qed.

Lemma prev_day_spec U :
  Bd U ->
  Bd (rdh (U - 12)) /\ rdh (U - 12) < U
  /\ (forall b, Bd b -> b < U -> b <= rdh (U - 12)).
Proof.
  intros BU. pose proof (rdh_spec (U - 12)) as (Br & Hr & _).
  split; [assumption|]. split; [lia|].
  intros b Bb Hb. apply rdh_greatest; [assumption|].
  assert (L b <= L U) by (apply L_mono; lia).
  assert (L b <> L U) by (intros E; apply midnight_inj in E; auto; lia).
  pose proof (oh_diff b U). unfold day_boundary, hl_local in *. dlia.
Qed.

Section Period.

Variable pos : Z -> Z.
Hypothesis pos_ok : period_pos pos.

Local Abbreviation rph := (hl_round_period oh pos).
Local Abbreviation Bp := (period_boundary oh pos).

Lemma pos_back n k : 0 <= k <= pos n -> pos (n - k) = pos n - k.
Proof.
  intros [Hk Hle]. revert Hle. pattern k. apply natlike_ind; [| |exact Hk].
  - intros _. rewrite !Z.sub_0_r. reflexivity.
  - intros x Hx IH Hle. destruct pos_ok as [_ St].
    specialize (IH ltac:(lia)).
    destruct (St (n - Z.succ x)) as [e|[e _]];
      replace (n - Z.succ x + 1) with (n - x) in e by lia; lia.
Qed.

Lemma pos_zero_before n n' : pos n' = 0 -> n' <= n -> n' <= n - pos n.
Proof.
  intros Z0 Hle. destruct (Z.le_gt_cases n' (n - pos n)) as [|Gt]; [assumption|].
  pose proof (pos_back n (n - n') ltac:(lia)) as E.
  replace (n - (n - n')) with n' in E by lia. lia.
Qed.

Lemma rph_spec U :
  Bp (rph U) /\ rph U <= U /\ (forall b, Bp b -> b <= U -> b <= rph U).
Proof.
  unfold hl_round_period. cbv zeta.
  pose proof (rdh_spec U) as (Br & Hr & _).
  set (r := rdh U) in *. set (n := hl_date oh r). set (p := pos n).
  assert (Hp : 0 <= p) by (destruct pos_ok as [N _]; apply N).
  destruct (Z.eqb_spec p 0) as [E0|E0].
  - split; [split; assumption|]. split; [assumption|].
    intros b [Bb _] Hb. apply rdh_greatest; assumption.
  - set (t := r - (24 * (p - 1) + 12)).
    pose proof (rdh_spec t) as (Br' & Hr' & _).
    pose proof (oh_diff t r) as D.
    assert (Lt : 24 * (n - p - 1) + 11 <= L t <= 24 * (n - p - 1) + 13).
    { subst n t. unfold hl_date, day_boundary, hl_local in *. dlia. }
    assert (Dt : hl_date oh t = n - p) by (unfold hl_date; dlia).
    split; [split; [assumption|]|split; [lia|]].
    + rewrite rdh_date, Dt. subst p. rewrite pos_back; lia.
    + intros b [Bb Pb] Hb. apply rdh_greatest; [assumption|].
      assert (b <= r) by (apply rdh_greatest; assumption).
      assert (Db : hl_date oh b <= n - p).
      { apply pos_zero_before; [assumption|]. apply date_mono. assumption. }
      destruct (Z.le_gt_cases b t) as [|Gt]; [assumption|exfalso].
      assert (L t <= L b) by (apply L_mono; lia).
      unfold hl_date, day_boundary in *. dlia.
Qed.

Lemma prev_period_spec U :
  Bp U ->
  Bp (rph (U - 24)) /\ rph (U - 24) < U
  /\ (forall b, Bp b -> b < U -> b <= rph (U - 24)).
Proof.
  intros [BU PU]. pose proof (rph_spec (U - 24)) as (Br & Hr & G).
  split; [assumption|]. split; [lia|].
  intros b [Bb Pb] Hb. apply G; [split; assumption|].
  assert (L b <= L U) by (apply L_mono; lia).
  assert (L b <> L U) by (intros E; apply midnight_inj in E; auto; lia).
  assert (hl_date oh b <> hl_date oh U - 1).
  { intros E. destruct pos_ok as [_ St].
    destruct (St (hl_date oh b)) as [e|[_ e]];
      replace (hl_date oh b + 1) with (hl_date oh U) in * by lia; lia. }
  pose proof (oh_diff b U). unfold hl_date, day_boundary, hl_local in *. dlia.
Qed.

End Period.

End HourLevel.


(** ** From microseconds to whole hours *)

Section Bridge.

Variable localoff : Z -> Z.
Hypothesis zone : dst_zone localoff.

Local Abbreviation oh := (hour_offsets localoff).

Lemma localoff_hours U : localoff (U * US_PER_HOUR) = oh U * US_PER_HOUR.
Proof.
  destruct zone as (std & R & _). unfold hour_offsets.
  destruct (R (U * US_PER_HOUR)) as [e|e]; rewrite e; unfold_time; dlia.
Qed.

Lemma localoff_floor u : localoff u = oh (u / US_PER_HOUR) * US_PER_HOUR.
Proof.
  destruct zone as (std & _ & F & _). rewrite (F u). apply localoff_hours.
Qed.

Lemma hl_zone_of : hl_zone oh.
Proof.
  destruct zone as (std & R & F & S & M). exists std. split; [|split].
  - intros U. unfold hour_offsets.
    destruct (R (U * US_PER_HOUR)) as [e|e]; rewrite e; unfold_time; dlia.
  - intros a b c Hab Hc.
    destruct (S (a * US_PER_HOUR) (b * US_PER_HOUR) (c * US_PER_HOUR)) as [e|e];
      [unfold_time; lia|unfold_time; lia| |]; unfold hour_offsets; rewrite e; auto.
  - intros U Hne.
    specialize (M (U * US_PER_HOUR)).
    replace (U * US_PER_HOUR - US_PER_HOUR) with ((U - 1) * US_PER_HOUR) in M
      by (unfold_time; lia).
    unfold astimezone, hour, utc_at, instant in M. cbn [wall utcoff] in M.
    rewrite !Z.sub_0_r in M. rewrite !localoff_hours in M.
    destruct M as [M1 M2].
    + unfold_time; dlia.
    + intros E. apply Hne. apply (f_equal (fun x => x / US_PER_HOUR)) in E.
      rewrite !Z.div_mul in E by (unfold_time; lia). exact E.
    + unfold hl_local. split.
      * intros E. apply M1. rewrite <- E. f_equal. unfold_time. dlia.
      * intros E. apply M2. rewrite <- E. f_equal. unfold_time. dlia.
Qed.

Lemma instant_at_hour off U : instant (at_hour off U) = U * US_PER_HOUR.
Proof. unfold instant, at_hour. cbn. lia. Qed.

Lemma round_hour_at ts :
  whole_hour ts -> round_beginning_hour ts = at_hour (utcoff ts) (hour_index ts).
Proof.
  unfold whole_hour, round_beginning_hour, replace_minute_second_microsecond_0,
    at_hour, hour_index, instant.
  intros W. f_equal. unfold_time. dlia.
Qed.

Lemma hour_index_at_hour off U : hour_index (at_hour off U) = U.
Proof.
  unfold hour_index. rewrite instant_at_hour. apply Z.div_mul. unfold_time; lia.
Qed.

Lemma astimezone_at_hour off U :
  astimezone localoff (at_hour off U)
  = {| wall := hl_local oh U * US_PER_HOUR; utcoff := oh U * US_PER_HOUR |}.
Proof.
  unfold astimezone. rewrite instant_at_hour, localoff_hours.
  unfold hl_local. f_equal. lia.
Qed.

Lemma hour_astimezone off U :
  hour (astimezone localoff (at_hour off U)) = hl_local oh U mod 24.
Proof.
  rewrite astimezone_at_hour. unfold hour. cbn [wall].
  rewrite Z.div_mul by (unfold_time; lia). reflexivity.
Qed.

Lemma toordinal_astimezone off U :
  toordinal (astimezone localoff (at_hour off U)) = hl_date oh U.
Proof.
  rewrite astimezone_at_hour. unfold toordinal, hl_date. cbn [wall].
  f_equal. unfold_time. dlia.
Qed.

Lemma dt_sub_at_hour off U n :
  dt_sub (at_hour off U) (timedelta_hours n) = at_hour off (U - n).
Proof. unfold dt_sub, at_hour, timedelta_hours. cbn. f_equal. lia. Qed.

Lemma dt_add_at_hour off U n :
  dt_add (at_hour off U) (timedelta_hours n) = at_hour off (U + n).
Proof. unfold dt_add, at_hour, timedelta_hours. cbn. f_equal. lia. Qed.

Lemma whole_hour_at_hour off U : off mod US_PER_HOUR = 0 -> whole_hour (at_hour off U).
Proof. intros H. exact H. Qed.

Lemma round_day_at_hour off U :
  off mod US_PER_HOUR = 0 ->
  round_beginning_day localoff (at_hour off U) = at_hour off (hl_round_day oh U).
Proof.
  intros W. unfold round_beginning_day. cbv zeta.
  rewrite (round_hour_at (at_hour off U)) by exact W.
  rewrite hour_index_at_hour. cbn [utcoff at_hour]. fold (at_hour off U).
  rewrite hour_astimezone. unfold hl_round_day. cbv zeta.
  destruct (hl_local oh U mod 24 =? 0); [reflexivity|].
  rewrite dt_sub_at_hour, hour_astimezone.
  destruct (_ =? 0); [reflexivity|].
  destruct (_ =? 1); [apply dt_sub_at_hour|apply dt_add_at_hour].
Qed.

Lemma round_day_eq ts :
  whole_hour ts ->
  round_beginning_day localoff ts
  = at_hour (utcoff ts) (hl_round_day oh (hour_index ts)).
Proof.
  intros W. rewrite <- round_day_at_hour by exact W.
  unfold round_beginning_day. cbv zeta.
  rewrite (round_hour_at ts W).
  rewrite (round_hour_at (at_hour _ _)) by exact W.
  rewrite hour_index_at_hour. reflexivity.
Qed.

Lemma round_period_eq (pos : Z -> Z) (test : datetime -> bool)
  (back : datetime -> Z) (f : datetime -> datetime) ts :
  whole_hour ts ->
  (forall off U, test (astimezone localoff (at_hour off U)) = (pos (hl_date oh U) =? 0)) ->
  (forall off U, back (astimezone localoff (at_hour off U)) = pos (hl_date oh U) - 1) ->
  f ts = (let ts := round_beginning_day localoff ts in
          let local := astimezone localoff ts in
          if test local then ts
          else round_beginning_day localoff
                 (dt_sub ts (timedelta_hours (24 * back local + 12)))) ->
  f ts = at_hour (utcoff ts) (hl_round_period oh pos (hour_index ts)).
Proof.
  intros W Ht Hb ->. cbv zeta. rewrite (round_day_eq ts W).
  rewrite Ht, Hb. unfold hl_round_period. cbv zeta.
  destruct (_ =? 0); [reflexivity|].
  rewrite dt_sub_at_hour. apply round_day_at_hour. exact W.
Qed.

Lemma round_week_eq ts :
  whole_hour ts ->
  round_beginning_week localoff ts
  = at_hour (utcoff ts) (hl_round_period oh pos_week (hour_index ts)).
Proof.
  intros W.
  apply (round_period_eq pos_week (fun l => weekday l =? 0) (fun l => weekday l - 1));
    [exact W| | |reflexivity].
  - intros off U. unfold weekday. rewrite toordinal_astimezone. reflexivity.
  - intros off U. unfold weekday. rewrite toordinal_astimezone. reflexivity.
Qed.

Lemma round_month_eq ts :
  whole_hour ts ->
  round_beginning_month localoff ts
  = at_hour (utcoff ts) (hl_round_period oh pos_month (hour_index ts)).
Proof.
  intros W.
  apply (round_period_eq pos_month (fun l => day l =? 1) (fun l => day l - 2));
    [exact W| | |reflexivity].
  - intros off U. unfold day. rewrite toordinal_astimezone. unfold pos_month.
    destruct (Z.eqb_spec (snd (Calendar.ord2ymd (hl_date oh U))) 1),
      (Z.eqb_spec (snd (Calendar.ord2ymd (hl_date oh U)) - 1) 0); (reflexivity || lia).
  - intros off U. unfold day. rewrite toordinal_astimezone. unfold pos_month. lia.
Qed.

Lemma round_year_eq ts :
  whole_hour ts ->
  round_beginning_year localoff ts
  = at_hour (utcoff ts) (hl_round_period oh pos_year (hour_index ts)).
Proof.
  intros W.
  apply (round_period_eq pos_year
           (fun l => (month l =? 1) && (day l =? 1))
           (fun l => toordinal l - Calendar.ymd2ord (year l) 1 1 - 1));
    [exact W| | |reflexivity].
  - intros off U. unfold month, day. rewrite toordinal_astimezone. apply jan1_iff.
  - intros off U. unfold year. rewrite toordinal_astimezone. reflexivity.
Qed.

Lemma round_beginning_eq p ts :
  whole_hour ts ->
  round_beginning localoff p ts
  = at_hour (utcoff ts) (hl_round oh p (hour_index ts)).
Proof.
  intros W. destruct p; cbn [round_beginning hl_round].
  - apply round_hour_at, W.
  - apply round_day_eq, W.
  - apply round_week_eq, W.
  - apply round_month_eq, W.
  - apply round_year_eq, W.
Qed.

End Bridge.

(** ** Rounding: the greatest boundary that is not later *)

Lemma hl_round_spec oh p U :
  hl_zone oh ->
  hl_boundary oh p (hl_round oh p U) /\ hl_round oh p U <= U
  /\ (forall b, hl_boundary oh p b -> b <= U -> b <= hl_round oh p U).
Proof.
  intros Z. destruct p; cbn [hl_boundary hl_round].
  - repeat split; auto; lia.
  - pose proof (rdh_spec oh Z U) as (B & Le & _).
    repeat split; auto. intros b Bb Hb. apply rdh_greatest; auto.
  - apply rph_spec; [exact Z|exact pos_week_ok].
  - apply rph_spec; [exact Z|exact pos_month_ok].
  - apply rph_spec; [exact Z|exact pos_year_ok].
Qed.

Lemma hl_prev_spec oh p U :
  hl_zone oh -> hl_boundary oh p U ->
  hl_boundary oh p (hl_prev oh p U) /\ hl_prev oh p U < U
  /\ (forall b, hl_boundary oh p b -> b < U -> b <= hl_prev oh p U).
Proof.
  intros Z. destruct p; cbn [hl_boundary hl_prev].
  - intros _. repeat split; auto; lia.
  - apply prev_day_spec, Z.
  - apply prev_period_spec; [exact Z|exact pos_week_ok].
  - apply prev_period_spec; [exact Z|exact pos_month_ok].
  - apply prev_period_spec; [exact Z|exact pos_year_ok].
Qed.


Lemma cet_2019_dst_zone : dst_zone cet_2019.
Proof.
  assert (T1 : utc_instant 2019 3 31 1 0 0 0 = 17691553 * 3600000000)
    by (vm_compute; reflexivity).
  assert (T2 : utc_instant 2019 10 27 1 0 0 0 = 17696593 * 3600000000)
    by (vm_compute; reflexivity).
  exists 1. unfold cet_2019. rewrite T1, T2. split; [|split; [|split]].
  - intros u. destruct (_ && _); auto.
  - intros u.
    destruct (Z.leb_spec (17691553 * 3600000000) u), (Z.ltb_spec u (17696593 * 3600000000)),
      (Z.leb_spec (17691553 * 3600000000) (u / US_PER_HOUR * US_PER_HOUR)),
      (Z.ltb_spec (u / US_PER_HOUR * US_PER_HOUR) (17696593 * 3600000000));
      cbn [andb]; try reflexivity; exfalso; unfold_time; dlia.
  - intros a b c Hab Hc.
    destruct (Z.leb_spec (17691553 * 3600000000) a), (Z.ltb_spec a (17696593 * 3600000000)),
      (Z.leb_spec (17691553 * 3600000000) b), (Z.ltb_spec b (17696593 * 3600000000)),
      (Z.leb_spec (17691553 * 3600000000) c), (Z.ltb_spec c (17696593 * 3600000000));
      cbn [andb]; auto; exfalso; unfold_time; lia.
  - intros u Hu. unfold astimezone, hour, utc_at, instant. cbn [wall utcoff].
    rewrite !Z.sub_0_r.
    destruct (Z.leb_spec (17691553 * 3600000000) u), (Z.ltb_spec u (17696593 * 3600000000)),
      (Z.leb_spec (17691553 * 3600000000) (u - US_PER_HOUR)),
      (Z.ltb_spec (u - US_PER_HOUR) (17696593 * 3600000000));
      cbn [andb]; intros Hne; try congruence; unfold_time; dlia.
Qed.


Lemma instant_round_beginning localoff p t :
  dst_zone localoff -> whole_hour t ->
  instant (round_beginning localoff p t)
  = hl_round (hour_offsets localoff) p (hour_index t) * US_PER_HOUR.
Proof.
  intros Z W. rewrite round_beginning_eq by assumption. apply instant_at_hour.
Qed.



(** ** The previous boundary *)

Lemma clock_zero w :
  ((w / US_PER_MINUTE) mod 60 =? 0) && ((w / US_PER_SECOND) mod 60 =? 0)
  && (w mod US_PER_SECOND =? 0)
  = (w mod US_PER_HOUR =? 0).
Proof.
  unfold_time.
  destruct (Z.eqb_spec ((w / 60000000) mod 60) 0), (Z.eqb_spec ((w / 1000000) mod 60) 0),
    (Z.eqb_spec (w mod 1000000) 0), (Z.eqb_spec (w mod 3600000000) 0);
    cbn [andb]; try reflexivity; exfalso; dlia.
Qed.

Section Prev.

Variable localoff : Z -> Z.
Hypothesis zone : dst_zone localoff.

Local Abbreviation oh := (hour_offsets localoff).

Lemma wall_astimezone t :
  wall (astimezone localoff t)
  = instant t + oh (hour_index t) * US_PER_HOUR.
Proof.
  unfold astimezone. cbn [wall]. rewrite (localoff_floor localoff zone). reflexivity.
Qed.

Lemma hour_local t :
  hour (astimezone localoff t) = hl_local oh (hour_index t) mod 24.
Proof.
  unfold hour. rewrite wall_astimezone. unfold hl_local, hour_index.
  rewrite Z.div_add by (unfold_time; lia). reflexivity.
Qed.

Lemma toordinal_local t :
  toordinal (astimezone localoff t) = hl_date oh (hour_index t).
Proof.
  unfold toordinal. rewrite wall_astimezone. unfold hl_date, hl_local, hour_index.
  f_equal. unfold_time. dlia.
Qed.

Lemma clock_local t :
  (minute (astimezone localoff t) =? 0) && (second (astimezone localoff t) =? 0)
  && (microsecond (astimezone localoff t) =? 0)
  = (instant t mod US_PER_HOUR =? 0).
Proof.
  unfold minute, second, microsecond. rewrite clock_zero, wall_astimezone.
  rewrite Z.mod_add by (unfold_time; lia). reflexivity.
Qed.

Lemma clock_own t :
  whole_hour t ->
  (minute t =? 0) && (second t =? 0) && (microsecond t =? 0)
  = (instant t mod US_PER_HOUR =? 0).
Proof.
  intros W. unfold minute, second, microsecond. rewrite clock_zero.
  unfold whole_hour, instant in *.
  destruct (Z.eqb_spec (wall t mod US_PER_HOUR) 0),
    (Z.eqb_spec ((wall t - utcoff t) mod US_PER_HOUR) 0);
    try reflexivity; exfalso; unfold_time; dlia.
Qed.

Lemma on_boundary_hl p t :
  on_boundary localoff p t
  = (instant t mod US_PER_HOUR =? 0)
    && match p with
       | hourly => true
       | daily => hl_local oh (hour_index t) mod 24 =? 0
       | weekly => (pos_week (hl_date oh (hour_index t)) =? 0)
                   && (hl_local oh (hour_index t) mod 24 =? 0)
       | monthly => (pos_month (hl_date oh (hour_index t)) =? 0)
                    && (hl_local oh (hour_index t) mod 24 =? 0)
       | yearly => (pos_year (hl_date oh (hour_index t)) =? 0)
                   && (hl_local oh (hour_index t) mod 24 =? 0)
       end.
Proof.
  unfold on_boundary. cbv zeta. rewrite clock_local, hour_local.
  destruct p.
  - bool_eq.
  - bool_eq.
  - unfold weekday. rewrite toordinal_local. fold (pos_week (hl_date oh (hour_index t))).
    bool_eq.
  - unfold day. rewrite toordinal_local.
    replace (snd (Calendar.ord2ymd (hl_date oh (hour_index t))) =? 1)
      with (pos_month (hl_date oh (hour_index t)) =? 0).
    + bool_eq.
    + unfold pos_month.
      destruct (Z.eqb_spec (snd (Calendar.ord2ymd (hl_date oh (hour_index t))) - 1) 0),
        (Z.eqb_spec (snd (Calendar.ord2ymd (hl_date oh (hour_index t)))) 1);
        (reflexivity || lia).
  - unfold month, day. rewrite toordinal_local, jan1_iff. bool_eq.
Qed.

Lemma on_boundary_iff p t :
  on_boundary localoff p t = true
  <-> instant t mod US_PER_HOUR = 0 /\ hl_boundary oh p (hour_index t).
Proof.
  rewrite on_boundary_hl, andb_true_iff, Z.eqb_eq.
  apply and_iff_compat_l.
  destruct p; cbn [hl_boundary]; unfold period_boundary, day_boundary;
    rewrite ?andb_true_iff, ?Z.eqb_eq; tauto.
Qed.

Lemma aligned_at_hour t :
  instant t mod US_PER_HOUR = 0 -> t = at_hour (utcoff t) (hour_index t).
Proof.
  intros A. destruct t as [w o]. unfold at_hour, hour_index, instant in *.
  cbn [wall utcoff] in *. f_equal. unfold_time. dlia.
Qed.

Lemma dt_sub_days t : dt_sub t (timedelta_days 1) = dt_sub t (timedelta_hours 24).
Proof. reflexivity. Qed.

Lemma round_beginning_at_hour p off U :
  off mod US_PER_HOUR = 0 ->
  round_beginning localoff p (at_hour off U) = at_hour off (hl_round oh p U).
Proof.
  intros W. rewrite (round_beginning_eq localoff zone p (at_hour off U) W).
  rewrite hour_index_at_hour. reflexivity.
Qed.

Lemma prev_period_eq p t :
  whole_hour t ->
  prev_period localoff p t
  = if on_boundary localoff p t
    then at_hour (utcoff t) (hl_prev oh p (hour_index t))
    else round_beginning localoff p t.
Proof.
  intros W.
  assert (T : prev_period localoff p t
              = if negb (on_boundary localoff p t)
                then round_beginning localoff p t
                else match p with
                     | hourly => dt_sub t (timedelta_hours 1)
                     | daily => round_beginning localoff daily
                                  (dt_sub t (timedelta_hours 12))
                     | _ => round_beginning localoff p
                              (dt_sub t (timedelta_hours 24))
                     end).
  { destruct p; cbn [prev_period round_beginning];
      unfold prev_hour, prev_day, prev_week, prev_month, prev_year; cbv zeta;
      rewrite ?dt_sub_days.
    - replace (on_boundary localoff hourly t)
        with ((minute t =? 0) && (second t =? 0) && (microsecond t =? 0))
        by (rewrite (clock_own t W), on_boundary_hl; bool_eq).
      reflexivity.
    - replace (on_boundary localoff daily t) with
        ((hour (astimezone localoff t) =? 0) && (minute (astimezone localoff t) =? 0)
         && (second (astimezone localoff t) =? 0)
         && (microsecond (astimezone localoff t) =? 0))
        by (unfold on_boundary; cbv zeta; bool_eq).
      reflexivity.
    - replace (on_boundary localoff weekly t) with
        ((weekday (astimezone localoff t) =? 0)
         && (hour (astimezone localoff t) =? 0) && (minute (astimezone localoff t) =? 0)
         && (second (astimezone localoff t) =? 0)
         && (microsecond (astimezone localoff t) =? 0))
        by (unfold on_boundary; cbv zeta; bool_eq).
      reflexivity.
    - replace (on_boundary localoff monthly t) with
        ((day (astimezone localoff t) =? 1)
         && (hour (astimezone localoff t) =? 0) && (minute (astimezone localoff t) =? 0)
         && (second (astimezone localoff t) =? 0)
         && (microsecond (astimezone localoff t) =? 0))
        by (unfold on_boundary; cbv zeta; bool_eq).
      reflexivity.
    - replace (on_boundary localoff yearly t) with
        ((month (astimezone localoff t) =? 1) && (day (astimezone localoff t) =? 1)
         && (hour (astimezone localoff t) =? 0) && (minute (astimezone localoff t) =? 0)
         && (second (astimezone localoff t) =? 0)
         && (microsecond (astimezone localoff t) =? 0))
        by (unfold on_boundary; cbv zeta; bool_eq).
      reflexivity. }
  rewrite T. destruct (on_boundary localoff p t) eqn:B; cbn [negb]; [|reflexivity].
  apply on_boundary_iff in B. destruct B as [A _].
  clear T. pose proof (aligned_at_hour t A) as E.
  set (off := utcoff t) in *. set (U := hour_index t) in *.
  assert (Wo : off mod US_PER_HOUR = 0) by exact W.
  clearbody off U. subst t.
  rewrite !dt_sub_at_hour.
  destruct p; cbn [hl_prev]; try reflexivity;
    rewrite round_beginning_at_hour by exact Wo; reflexivity.
Qed.

Lemma aligned_instant t :
  instant t mod US_PER_HOUR = 0 -> instant t = hour_index t * US_PER_HOUR.
Proof. unfold hour_index. intros A. unfold_time. dlia. Qed.


Lemma prev_period_lt p t :
  whole_hour t -> instant (prev_period localoff p t) < instant t.
Proof.
  intros W. rewrite (prev_period_eq p t W).
  pose proof (hl_zone_of localoff zone) as HZ.
  destruct (on_boundary localoff p t) eqn:B.
  - apply on_boundary_iff in B. destruct B as [A B].
    rewrite instant_at_hour, (aligned_instant t A).
    destruct (hl_prev_spec oh p (hour_index t) HZ B) as (_ & Lt & _).
    apply Z.mul_lt_mono_pos_r; [unfold_time; lia|exact Lt].
  - rewrite (instant_round_beginning localoff p t zone W).
    destruct (hl_round_spec oh p (hour_index t) HZ) as (Bd & Le & _).
    destruct (Z.eq_dec (instant t mod US_PER_HOUR) 0) as [A|NA].
    + rewrite (aligned_instant t A).
      apply Z.mul_lt_mono_pos_r; [unfold_time; lia|].
      destruct (Z.eq_dec (hl_round oh p (hour_index t)) (hour_index t)) as [E|NE]; [|lia].
      exfalso. rewrite E in Bd.
      assert (on_boundary localoff p t = true) by (apply on_boundary_iff; auto).
      congruence.
    + unfold hour_index in *. unfold_time. revert Le NA.
      generalize (hl_round oh p (instant t / 3600000000)). intros r Le NA. dlia.
Qed.

End Prev.



(** ** The scenarios of the tests *)

(** C4. On the twelve snapshots of the test, dated 2019-11-07 08:07:42 to
    2019-12-26 15:02:42 (+0100), [mark_period] at 2019-12-26T15:01:36+01:00
    for the daily period and a count of 5 keeps exactly the snapshots of
    13:00:24 (Dec 26), 11:03:32 (Dec 25), 04:47:42 (Dec 24), 07:47:42 (Dec 22)
    and 09:47:42 (Dec 16); all the others stay unkept. *)
Theorem mark_period_daily_scenario :
  option_map marks
    (bind_opt (add_all empty_collection mark_period_timestamps)
       (fun c => mark_period cet_2019 11 c (plus0100 2019 12 26 15 1 36) daily 5))
  = Some [(plus0100 2019 11 7 8 7 42, false);
          (plus0100 2019 12 1 7 52 42, false);
          (plus0100 2019 12 13 10 47 42, false);
          (plus0100 2019 12 15 19 47 42, false);
          (plus0100 2019 12 16 9 47 42, true);
          (plus0100 2019 12 22 7 47 42, true);
          (plus0100 2019 12 24 4 47 42, true);
          (plus0100 2019 12 24 17 47 42, false);
          (plus0100 2019 12 25 11 3 32, true);
          (plus0100 2019 12 26 13 0 24, true);
          (plus0100 2019 12 26 14 1 17, false);
          (plus0100 2019 12 26 15 2 42, false)].
Proof. vm_compute. reflexivity. Qed.

(** C8, as stated, fails: on the seven snapshots of the test the query from
    2019-12-26T00:00Z to 2019-12-26T15:00Z does not return a snapshot whose
    key is 2019-12-26 14:00Z. *)
Lemma find_oldest_scenario_not_14 :
  ~ (exists snap,
        find_oldest_scenario (utc 2019 12 26 0 0 0 0) (utc 2019 12 26 15 0 0 0)
        = Some (Some snap)
        /\ instant (key snap) = utc_instant 2019 12 26 14 0 0 0).
Proof.
  intros (snap & E & K). vm_compute in E. injection E as <-.
  vm_compute in K. discriminate K.
Qed.

(** C8, amended. The query from 2019-12-26T00:00Z to 2019-12-26T15:00Z returns
    the snapshot of 13:00:24 +0100, whose key is 2019-12-26 12:00Z, and the
    query from 2019-12-26T00:00Z to 2019-12-26T12:00Z returns none. *)
Theorem find_oldest_scenario_result :
  find_oldest_scenario (utc 2019 12 26 0 0 0 0) (utc 2019 12 26 15 0 0 0)
  = Some (Some {| ts := plus0100 2019 12 26 13 0 24;
                  key := plus0100 2019 12 26 13 0 0;
                  is_kept := false |})
  /\ instant (plus0100 2019 12 26 13 0 0) = utc_instant 2019 12 26 12 0 0 0
  /\ find_oldest_scenario (utc 2019 12 26 0 0 0 0) (utc 2019 12 26 12 0 0 0)
     = Some None.
Proof. repeat split; vm_compute; reflexivity. Qed.

(** ** Marking: what the loop of [mark_period] does *)

Lemma snap_le_refl a : snap_le a a.
Proof. repeat split; auto. Qed.

Lemma snap_le_trans a b c : snap_le a b -> snap_le b c -> snap_le a c.
Proof. unfold snap_le. intuition congruence. Qed.


Lemma Forall2_snap_le_refl l : Forall2 snap_le l l.
Proof. induction l; constructor; auto using snap_le_refl. Qed.

Lemma marks_le_refl c : marks_le c c.
Proof. split; auto using Forall2_snap_le_refl. Qed.

Lemma Forall2_snap_le_trans l1 l2 l3 :
  Forall2 snap_le l1 l2 -> Forall2 snap_le l2 l3 -> Forall2 snap_le l1 l3.
Proof.
  intros H. revert l3. induction H; intros l3 H3; inversion H3; subst; constructor;
    eauto using snap_le_trans.
Qed.

Lemma marks_le_trans c1 c2 c3 : marks_le c1 c2 -> marks_le c2 c3 -> marks_le c1 c3.
Proof.
  intros [S1 F1] [S2 F2]. split; [congruence|eauto using Forall2_snap_le_trans].
Qed.



Lemma snap_le_keep a : snap_le a (keep a).
Proof. repeat split; auto. Qed.

Lemma keep_nth_le i l : Forall2 snap_le l (keep_nth i l).
Proof.
  revert i. induction l as [|x l IH]; intros [|i]; cbn; constructor;
    auto using snap_le_keep, snap_le_refl, Forall2_snap_le_refl.
Qed.

Lemma keep_at_le i c : marks_le c (keep_at i c).
Proof. split; [reflexivity|apply keep_nth_le]. Qed.

Lemma keep_nth_mono i l1 l2 :
  Forall2 snap_le l1 l2 -> Forall2 snap_le (keep_nth i l1) (keep_nth i l2).
Proof.
  intros H. revert i. induction H; intros [|i]; cbn; constructor; auto.
  destruct H as (T & K & _). repeat split; auto.
Qed.

Lemma keep_at_mono i c1 c2 : marks_le c1 c2 -> marks_le (keep_at i c1) (keep_at i c2).
Proof. intros [S F]. split; [exact S|apply keep_nth_mono, F]. Qed.



Lemma nth_error_snap_le l1 l2 i :
  Forall2 snap_le l1 l2 ->
  match nth_error l1 i, nth_error l2 i with
  | Some a, Some b => snap_le a b
  | None, None => True
  | _, _ => False
  end.
Proof.
  intros H. revert i. induction H as [|a b l1 l2 Hab H IH]; intros [|i]; cbn; auto.
  apply IH.
Qed.

Lemma bisect_loop_le fuel a1 a2 x lo hi :
  Forall2 snap_le a1 a2 ->
  bisect_loop fuel a1 x lo hi = bisect_loop fuel a2 x lo hi.
Proof.
  intros H. revert lo hi. induction fuel as [|fuel IH]; intros lo hi; cbn [bisect_loop]; [reflexivity|].
  destruct (lo <? hi)%nat; [|reflexivity].
  pose proof (nth_error_snap_le a1 a2 ((lo + hi) / 2)%nat H) as N.
  destruct (nth_error a1 ((lo + hi) / 2)%nat) as [s1|],
    (nth_error a2 ((lo + hi) / 2)%nat) as [s2|]; try contradiction; [|reflexivity].
  destruct N as (_ & K & _). unfold snap_lt. rewrite K.
  destruct (dt_ltb (key s2) (key x)); apply IH.
Qed.

Lemma sort_sorted c : sorted c = true -> sort c = c.
Proof. unfold sort. intros ->. reflexivity. Qed.

Lemma find_oldest_snd c b e :
  sorted c = true -> snd (find_oldest_in_window c b e) = c.
Proof.
  intros S. unfold find_oldest_in_window. rewrite (sort_sorted c S). cbv zeta.
  destruct (_ <=? _)%nat; [reflexivity|].
  destruct (nth_error _ _); [|reflexivity]. destruct (dt_ltb _ _); reflexivity.
Qed.

Lemma find_oldest_le c1 c2 b e :
  marks_le c1 c2 -> sorted c1 = true ->
  fst (find_oldest_in_window c1 b e) = fst (find_oldest_in_window c2 b e).
Proof.
  intros [S F] S1. unfold find_oldest_in_window.
  rewrite (sort_sorted c1 S1), (sort_sorted c2) by congruence. cbv zeta.
  unfold bisect_left.
  rewrite (Forall2_length F), (bisect_loop_le _ _ _ _ _ _ F).
  destruct (_ <=? _)%nat; [reflexivity|].
  pose proof (nth_error_snap_le _ _
                (bisect_loop (List.length (collection c2)) (collection c2)
                   (ExistingSnapshot_init b) 0 (List.length (collection c2))) F) as N.
  destruct (nth_error (collection c1) _) as [s1|],
    (nth_error (collection c2) _) as [s2|]; try contradiction; [|reflexivity].
  destruct N as (_ & K & _). rewrite K. destruct (dt_ltb _ _); reflexivity.
Qed.

Lemma mark_guard_le c1 c2 e n :
  marks_le c1 c2 -> mark_guard c1 e n = mark_guard c2 e n.
Proof.
  intros [_ F]. unfold mark_guard. f_equal.
  destruct F as [|a b l1 l2 (T & _) _]; [reflexivity|]. rewrite T. reflexivity.
Qed.

Section MarkLoop.

Variable localoff : Z -> Z.

Lemma mark_loop_step fuel c p e n :
  sorted c = true ->
  mark_loop localoff (S fuel) c p e n
  = if mark_guard c e n
    then match fst (find_oldest_in_window c (prev_period localoff p e) e) with
         | Some i => mark_loop localoff fuel (keep_at i c) p
                       (prev_period localoff p e) (n - 1)
         | None => mark_loop localoff fuel c p (prev_period localoff p e) n
         end
    else Some c.
Proof.
  intros S. cbn [mark_loop]. destruct (mark_guard c e n); [|reflexivity].
  pose proof (find_oldest_snd c (prev_period localoff p e) e S) as E.
  destruct (find_oldest_in_window c (prev_period localoff p e) e) as [r c'].
  cbn [fst snd] in *. subst c'. reflexivity.
Qed.

Lemma mark_loop_0 c p e n :
  mark_loop localoff 0 c p e n = if mark_guard c e n then None else Some c.
Proof. reflexivity. Qed.

Lemma mark_loop_le fuel c p e n r :
  sorted c = true -> mark_loop localoff fuel c p e n = Some r -> marks_le c r.
Proof.
  revert c e n. induction fuel as [|fuel IH]; intros c e n S.
  - rewrite mark_loop_0. destruct (mark_guard c e n); [discriminate|].
    intros [= <-]. apply marks_le_refl.
  - rewrite mark_loop_step by exact S. destruct (mark_guard c e n).
    + destruct (fst (find_oldest_in_window c (prev_period localoff p e) e)) as [i|].
      * intros H. apply IH in H; [|exact S].
        eapply marks_le_trans; [apply keep_at_le|exact H].
      * apply IH, S.
    + intros [= <-]. apply marks_le_refl.
Qed.



Lemma sorted_sort c : sorted (sort c) = true.
Proof. unfold sort. destruct (sorted c) eqn:S; [exact S|reflexivity]. Qed.


End MarkLoop.

Section Termination.

Variable localoff : Z -> Z.
Hypothesis zone : dst_zone localoff.

Lemma prev_period_at_hour p t :
  whole_hour t ->
  exists U, prev_period localoff p t = at_hour (utcoff t) U.
Proof.
  intros W. rewrite (prev_period_eq localoff zone p t W).
  destruct (on_boundary localoff p t); [eexists; reflexivity|].
  rewrite (round_beginning_eq localoff zone p t W). eexists; reflexivity.
Qed.

Lemma prev_period_whole_hour p t :
  whole_hour t -> whole_hour (prev_period localoff p t).
Proof.
  intros W. destruct (prev_period_at_hour p t W) as [U ->]. exact W.
Qed.





End Termination.





(** ** Sorting and searching by key *)

Lemma snap_lt_iff a b : snap_lt a b = true <-> instant (key a) < instant (key b).
Proof. unfold snap_lt, dt_ltb. apply Z.ltb_lt. Qed.

Lemma snap_lt_false a b : snap_lt a b = false <-> instant (key b) <= instant (key a).
Proof. unfold snap_lt, dt_ltb. rewrite Z.ltb_ge. reflexivity. Qed.

(** *** [list.sort] *)

Lemma sort_by_key_cons x l :
  sort_by_key (x :: l) = insert_by_key x (sort_by_key l).
Proof. reflexivity. Qed.

Lemma insert_by_key_In x y l : In y (insert_by_key x l) <-> y = x \/ In y l.
Proof.
  induction l as [|z l IH]; cbn.
  - intuition.
  - destruct (dt_ltb (key z) (key x)); cbn; rewrite ?IH; intuition.
Qed.

Lemma sort_by_key_In y l : In y (sort_by_key l) <-> In y l.
Proof.
  induction l as [|x l IH]; [reflexivity|].
  rewrite sort_by_key_cons, insert_by_key_In, IH. cbn. intuition.
Qed.

Lemma insert_by_key_length x l :
  List.length (insert_by_key x l) = S (List.length l).
Proof.
  induction l as [|z l IH]; cbn; [reflexivity|].
  destruct (dt_ltb (key z) (key x)); cbn; congruence.
Qed.

Lemma insert_by_key_sorted x l :
  StronglySorted key_le l -> StronglySorted key_le (insert_by_key x l).
Proof.
  induction 1 as [|z l S IH F]; cbn.
  - constructor; constructor.
  - destruct (dt_ltb (key z) (key x)) eqn:E.
    + constructor; [exact IH|]. apply Forall_forall. intros y Hy.
      apply insert_by_key_In in Hy. destruct Hy as [->|Hy].
      * unfold dt_ltb in E. apply Z.ltb_lt in E. unfold key_le. lia.
      * rewrite Forall_forall in F. apply F, Hy.
    + unfold dt_ltb in E. apply Z.ltb_ge in E.
      constructor; [constructor; assumption|].
      constructor; [exact E|].
      apply Forall_forall. intros y Hy. rewrite Forall_forall in F.
      specialize (F y Hy). unfold key_le in *. lia.
Qed.

Lemma sort_by_key_sorted l : StronglySorted key_le (sort_by_key l).
Proof.
  induction l as [|x l IH]; [constructor|].
  rewrite sort_by_key_cons. apply insert_by_key_sorted, IH.
Qed.

(** Stability: for each key, the first snapshot with that key is the same
    before and after sorting. *)
Lemma find_insert_by_key k x l :
  find (has_key k) (insert_by_key x l)
  = if has_key k x then Some x else find (has_key k) l.
Proof.
  induction l as [|z l IH]; cbn; [reflexivity|].
  destruct (dt_ltb (key z) (key x)) eqn:E; cbn.
  - rewrite IH. unfold has_key, dt_ltb in *. apply Z.ltb_lt in E.
    destruct (Z.eqb_spec (instant (key x)) k), (Z.eqb_spec (instant (key z)) k);
      try reflexivity. lia.
  - reflexivity.
Qed.

Lemma find_sort_by_key k l :
  find (has_key k) (sort_by_key l) = find (has_key k) l.
Proof.
  induction l as [|x l IH]; [reflexivity|].
  rewrite sort_by_key_cons, find_insert_by_key, IH. reflexivity.
Qed.

(** Only the keys are compared. *)
Lemma insert_by_key_map f x l :
  (forall y, key (f y) = key y) ->
  insert_by_key (f x) (map f l) = map f (insert_by_key x l).
Proof.
  intros K. induction l as [|z l IH]; cbn; [reflexivity|].
  rewrite !K. destruct (dt_ltb (key z) (key x)); cbn; congruence.
Qed.

Lemma sort_by_key_map f l :
  (forall y, key (f y) = key y) ->
  sort_by_key (map f l) = map f (sort_by_key l).
Proof.
  intros K. induction l as [|x l IH]; [reflexivity|].
  cbn [map]. rewrite !sort_by_key_cons, IH. apply insert_by_key_map, K.
Qed.

(** *** [bisect_left] *)

Lemma sorted_nth a :
  StronglySorted key_le a ->
  forall i j s t, (i <= j)%nat ->
  nth_error a i = Some s -> nth_error a j = Some t -> key_le s t.
Proof.
  induction 1 as [|z l S IH F]; intros i j s t Hij Hi Hj.
  - destruct i; discriminate.
  - destruct i as [|i], j as [|j]; cbn in Hi, Hj.
    + injection Hi as <-. injection Hj as <-. unfold key_le. lia.
    + injection Hi as <-. rewrite Forall_forall in F.
      apply F. eapply nth_error_In, Hj.
    + lia.
    + apply (IH i j); [lia|assumption..].
Qed.

Lemma mid_bounds lo hi : (lo < hi -> lo <= (lo + hi) / 2 < hi)%nat.
Proof.
  intros H. pose proof (Nat.div_mod_eq (lo + hi) 2).
  pose proof (Nat.mod_upper_bound (lo + hi) 2). lia.
Qed.

Lemma bisect_loop_spec a x :
  StronglySorted key_le a ->
  forall fuel lo hi,
  (hi - lo <= fuel)%nat -> (lo <= hi <= List.length a)%nat ->
  (forall j s, (j < lo)%nat -> nth_error a j = Some s -> snap_lt s x = true) ->
  (forall j s, (hi <= j)%nat -> nth_error a j = Some s -> snap_lt s x = false) ->
  let r := bisect_loop fuel a x lo hi in
  (forall j s, (j < r)%nat -> nth_error a j = Some s -> snap_lt s x = true) /\
  (forall j s, (r <= j)%nat -> nth_error a j = Some s -> snap_lt s x = false).
Proof.
  intros Sa. induction fuel as [|fuel IH]; intros lo hi Hf Hb Hlo Hhi.
  - cbn. assert (lo = hi) by lia. subst. split; assumption.
  - cbn [bisect_loop]. destruct (Nat.ltb_spec lo hi) as [Hlt|Hge].
    + pose proof (mid_bounds lo hi Hlt) as Hm.
      set (mid := ((lo + hi) / 2)%nat) in *.
      destruct (nth_error a mid) as [a_mid|] eqn:Em.
      * destruct (snap_lt a_mid x) eqn:El.
        -- apply IH; [lia|lia| |exact Hhi].
           intros j s Hj Hs. apply snap_lt_iff. apply snap_lt_iff in El.
           assert (key_le s a_mid) by (apply (sorted_nth a Sa j mid); [lia|assumption..]).
           unfold key_le in *. lia.
        -- apply IH; [lia|lia|exact Hlo|].
           intros j s Hj Hs. apply snap_lt_false. apply snap_lt_false in El.
           assert (key_le a_mid s) by (apply (sorted_nth a Sa mid j); [lia|assumption..]).
           unfold key_le in *. lia.
      * apply nth_error_None in Em. lia.
    + assert (lo = hi) by lia. subst. split; assumption.
Qed.

Lemma bisect_left_spec a x :
  StronglySorted key_le a ->
  (forall j s, (j < bisect_left a x)%nat -> nth_error a j = Some s ->
               instant (key s) < instant (key x)) /\
  (forall j s, (bisect_left a x <= j)%nat -> nth_error a j = Some s ->
               instant (key x) <= instant (key s)).
Proof.
  intros Sa. unfold bisect_left.
  destruct (bisect_loop_spec a x Sa (List.length a) 0%nat (List.length a)) as [A B].
  - lia.
  - lia.
  - intros j s Hj. lia.
  - intros j s Hj Hs. assert (nth_error a j = None) by (apply nth_error_None; lia).
    congruence.
  - split; intros j s Hj Hs.
    + apply snap_lt_iff. eapply A; eassumption.
    + apply snap_lt_false. eapply B; eassumption.
Qed.

Lemma find_first_nth (P : ExistingSnapshot -> bool) a :
  forall i s, nth_error a i = Some s -> P s = true ->
  (forall j y, (j < i)%nat -> nth_error a j = Some y -> P y = false) ->
  find P a = Some s.
Proof.
  induction a as [|z a IH]; intros i s Hi Ps Hb.
  - destruct i; discriminate.
  - destruct i as [|i]; cbn in *.
    + injection Hi as ->. rewrite Ps. reflexivity.
    + rewrite (Hb 0%nat z); [|lia|reflexivity].
      apply (IH i); [assumption..|].
      intros j y Hj Hy. apply (Hb (S j)); [lia|exact Hy].
Qed.

(** *** The collection *)


Lemma fold_add l : forall c,
  collection (fold_left add l c) = (collection c ++ l)%list /\
  sorted (fold_left add l c) = match l with [] => sorted c | _ => false end.
Proof.
  induction l as [|x l IH]; intros c; cbn.
  - rewrite app_nil_r. split; reflexivity.
  - destruct (IH (add c x)) as [A B]. rewrite A, B. cbn.
    rewrite <- app_assoc. split; [reflexivity|]. destruct l; reflexivity.
Qed.

Lemma collection_collection_of l : collection (collection_of l) = l.
Proof. unfold collection_of. destruct (fold_add l empty_collection) as [A _]. exact A. Qed.

Lemma sorted_ok_collection_of l : sorted_ok (collection_of l).
Proof.
  unfold sorted_ok, collection_of. destruct (fold_add l empty_collection) as [A B].
  rewrite A, B. destruct l; cbn; [constructor|discriminate].
Qed.

Lemma sort_props c :
  sorted_ok c ->
  StronglySorted key_le (collection (sort c)) /\
  (forall x, In x (collection (sort c)) <-> In x (collection c)) /\
  (forall k, find (has_key k) (collection (sort c)) = find (has_key k) (collection c)).
Proof.
  intros W. unfold sort. destruct (sorted c) eqn:E.
  - repeat split; auto.
  - cbn. split; [apply sort_by_key_sorted|]. split.
    + intros x. apply sort_by_key_In.
    + intros k. apply find_sort_by_key.
Qed.

(** What [find_oldest_in_window] returns: the search starts at the key of
    the probe, [probe_key begin]. *)
Lemma find_oldest_snapshot_spec c b e :
  sorted_ok c ->
  match find_oldest_snapshot c b e with
  | Some s =>
      In s (collection c) /\
      probe_key b <= instant (key s) < instant e /\
      (forall x, In x (collection c) -> probe_key b <= instant (key x) ->
                 instant (key s) <= instant (key x)) /\
      find (has_key (instant (key s))) (collection c) = Some s
  | None =>
      forall x, In x (collection c) -> probe_key b <= instant (key x) ->
                instant e <= instant (key x)
  end.
Proof.
  intros W. destruct (sort_props c W) as (Sa & HIn & Hfind).
  unfold find_oldest_snapshot, find_oldest_in_window.
  set (a := collection (sort c)) in *.
  set (x := ExistingSnapshot_init b).
  destruct (bisect_left_spec a x Sa) as [Hlt Hge].
  set (idx := bisect_left a x) in *.
  change (instant (key x)) with (probe_key b) in Hlt, Hge.
  destruct (Nat.leb_spec (List.length a) idx) as [Hout|Hin].
  - intros y Hy Hk. apply HIn in Hy. apply In_nth_error in Hy as [j Hj].
    assert (j < List.length a)%nat by (apply nth_error_Some; congruence).
    specialize (Hlt j y ltac:(lia) Hj). lia.
  - destruct (nth_error a idx) as [s|] eqn:Es.
    2:{ apply nth_error_None in Es. lia. }
    pose proof (Hge idx s ltac:(lia) Es) as Hs.
    assert (Hmin : forall y, In y (collection c) -> probe_key b <= instant (key y) ->
                             instant (key s) <= instant (key y)).
    { intros y Hy Hk. apply HIn in Hy. apply In_nth_error in Hy as [j Hj].
      destruct (Nat.lt_ge_cases j idx) as [Hl|Hg].
      - specialize (Hlt j y Hl Hj). lia.
      - apply (sorted_nth a Sa idx j); assumption. }
    unfold dt_ltb. destruct (Z.ltb_spec (instant (key s)) (instant e)) as [He|He].
    + fold a. rewrite Es. split; [|split; [|split]].
      * apply HIn. eapply nth_error_In, Es.
      * lia.
      * exact Hmin.
      * rewrite <- Hfind. fold a. apply (find_first_nth _ a idx).
        -- exact Es.
        -- unfold has_key. apply Z.eqb_refl.
        -- intros j y Hj Hy. specialize (Hlt j y Hj Hy).
           unfold has_key. apply Z.eqb_neq. lia.
    + intros y Hy Hk. specialize (Hmin y Hy Hk). lia.
Qed.

(** ** The sorted collection and the search in it *)

Lemma insert_by_key_perm x l : Permutation (insert_by_key x l) (x :: l).
Proof.
  induction l as [|z l IH]; cbn; [reflexivity|].
  destruct (dt_ltb (key z) (key x)); [|reflexivity].
  rewrite IH. apply perm_swap.
Qed.

Lemma sort_by_key_perm l : Permutation (sort_by_key l) l.
Proof.
  induction l as [|x l IH]; [reflexivity|].
  rewrite sort_by_key_cons, insert_by_key_perm, IH. reflexivity.
Qed.

Lemma filter_insert_by_key k x l :
  filter (has_key k) (insert_by_key x l)
  = if has_key k x then x :: filter (has_key k) l else filter (has_key k) l.
Proof.
  induction l as [|z l IH]; cbn; [reflexivity|].
  destruct (dt_ltb (key z) (key x)) eqn:E; cbn.
  - rewrite IH. unfold has_key, dt_ltb in *. apply Z.ltb_lt in E.
    destruct (Z.eqb_spec (instant (key x)) k), (Z.eqb_spec (instant (key z)) k);
      try reflexivity. lia.
  - reflexivity.
Qed.

Lemma filter_sort_by_key k l :
  filter (has_key k) (sort_by_key l) = filter (has_key k) l.
Proof.
  induction l as [|x l IH]; [reflexivity|].
  rewrite sort_by_key_cons, filter_insert_by_key, IH. reflexivity.
Qed.

Lemma sort_collection_of_eq l :
  sort (collection_of l) = {| collection := sort_by_key l; sorted := true |}.
Proof.
  unfold sort, collection_of. destruct (fold_add l empty_collection) as [A B].
  destruct l as [|x l].
  - reflexivity.
  - rewrite A, B. reflexivity.
Qed.

(** X1. [sort] after any sequence of [add]: the collection is in
    non-decreasing order of the keys, holds the records that were added and
    no others, keeps the records of equal keys in the order they were added,
    and a second [sort] changes nothing. *)
Theorem sort_collection_of snaps :
  sorted (sort (collection_of snaps)) = true
  /\ StronglySorted key_le (collection (sort (collection_of snaps)))
  /\ Permutation (collection (sort (collection_of snaps))) snaps
  /\ (forall k, filter (has_key k) (collection (sort (collection_of snaps)))
                = filter (has_key k) snaps)
  /\ sort (sort (collection_of snaps)) = sort (collection_of snaps).
Proof.
  rewrite sort_collection_of_eq. cbn [collection sorted].
  split; [reflexivity|]. split; [apply sort_by_key_sorted|].
  split; [apply sort_by_key_perm|]. split; [intros k; apply filter_sort_by_key|].
  reflexivity.
Qed.

Lemma probe_key_eq b : probe_key b = instant (round_beginning_hour b).
Proof. reflexivity. Qed.

Lemma find_oldest_snapshot_collection_of snaps b e :
  match find_oldest_snapshot (collection_of snaps) b e with
  | Some s =>
      In s snaps
      /\ instant (round_beginning_hour b) <= instant (key s) < instant e
      /\ (forall x, In x snaps ->
            instant (round_beginning_hour b) <= instant (key x) ->
            instant (key s) <= instant (key x))
      /\ find (has_key (instant (key s))) snaps = Some s
  | None =>
      forall x, In x snaps ->
        instant (round_beginning_hour b) <= instant (key x) ->
        instant e <= instant (key x)
  end.
Proof.
  pose proof (find_oldest_snapshot_spec (collection_of snaps) b e
                (sorted_ok_collection_of snaps)) as H.
  rewrite collection_collection_of in H. exact H.
Qed.

(** X2. [find_oldest_in_window(begin, end)] on a collection filled by [add]:
    the search starts at the key of the probe, that is at [begin] rounded to
    the beginning of its hour.  The record returned has the smallest key that
    is not before that hour, this key is before [end], and among the records
    of that key it is the one added first; [None] is returned when no key lies
    between that hour and [end]. *)
Theorem find_oldest_in_window_collection_of snaps b e :
  match find_oldest_snapshot (collection_of snaps) b e with
  | Some s =>
      In s snaps
      /\ instant (round_beginning_hour b) <= instant (key s) < instant e
      /\ (forall x, In x snaps ->
            instant (round_beginning_hour b) <= instant (key x) ->
            instant (key s) <= instant (key x))
      /\ find (has_key (instant (key s))) snaps = Some s
  | None =>
      forall x, In x snaps ->
        instant (round_beginning_hour b) <= instant (key x) ->
        instant e <= instant (key x)
  end.
Proof. exact (find_oldest_snapshot_collection_of snaps b e). Qed.

Lemma round_hour_aligned b :
  minute b = 0 -> second b = 0 -> microsecond b = 0 ->
  round_beginning_hour b = b.
Proof.
  intros Hm Hs Hu.
  pose proof (clock_zero (wall b)) as C. fold (minute b) (second b) (microsecond b) in C.
  rewrite Hm, Hs, Hu in C. cbn in C. symmetry in C. apply Z.eqb_eq in C.
  destruct b as [w o]. unfold round_beginning_hour, replace_minute_second_microsecond_0.
  cbn [wall utcoff] in *. f_equal. revert C. unfold_time. intros C. dlia.
Qed.

(** X3. When [begin] is on the hour of its own clock, [find_oldest_in_window]
    does what its docstring says: a record is returned exactly when some key
    lies in [begin <= key < end], and it is one of smallest key in that
    window. *)
Theorem find_oldest_in_window_aligned snaps b e :
  minute b = 0 -> second b = 0 -> microsecond b = 0 ->
  (find_oldest_snapshot (collection_of snaps) b e = None
   <-> forall x, In x snaps -> ~ (instant b <= instant (key x) < instant e))
  /\ (forall s, find_oldest_snapshot (collection_of snaps) b e = Some s ->
        In s snaps /\ instant b <= instant (key s) < instant e
        /\ forall x, In x snaps -> instant b <= instant (key x) < instant e ->
                     instant (key s) <= instant (key x)).
Proof.
  intros Hm Hs Hu.
  pose proof (find_oldest_snapshot_collection_of snaps b e) as H.
  rewrite (round_hour_aligned b Hm Hs Hu) in H.
  destruct (find_oldest_snapshot (collection_of snaps) b e) as [s|].
  - destruct H as (I & R & M & _). split.
    + split; [discriminate|]. intros N. exfalso. exact (N s I R).
    + intros s' [= <-]. split; [exact I|]. split; [exact R|].
      intros x Hx Rx. apply M; [exact Hx|lia].
  - split.
    + split; [|reflexivity]. intros _ x Hx R. specialize (H x Hx). lia.
    + discriminate.
Qed.

Lemma find_oldest_in_window_aligned_witness :
  find_oldest_snapshot
    (collection_of [ExistingSnapshot_init (plus0100 2019 12 26 15 2 42)])
    (utc 2019 12 26 14 0 0 0) (utc 2019 12 26 14 0 0 0) = None.
Proof.
  apply (find_oldest_in_window_aligned
           [ExistingSnapshot_init (plus0100 2019 12 26 15 2 42)]
           (utc 2019 12 26 14 0 0 0) (utc 2019 12 26 14 0 0 0));
    try reflexivity.
  intros x [<-|[]]. vm_compute. intros [H1 H2]. discriminate H2.
Defined.

(** ** Recent snapshots and the decision of main *)

Lemma forallb_ext {A : Type} (f g : A -> bool) l :
  (forall a, f a = g a) -> forallb f l = forallb g l.
Proof.
  intros E. induction l as [|a l IH]; cbn; [reflexivity|]. rewrite E, IH. reflexivity.
Qed.

Section Decision.

Variable localoff : Z -> Z.

Lemma sort_sort c : sort (sort c) = sort c.
Proof. apply sort_sorted, sorted_sort. Qed.

Lemma find_oldest_in_window_sort c b e :
  find_oldest_in_window (sort c) b e = find_oldest_in_window c b e.
Proof. unfold find_oldest_in_window. rewrite sort_sort. reflexivity. Qed.

Lemma find_oldest_in_window_snd c b e :
  snd (find_oldest_in_window c b e) = sort c.
Proof.
  unfold find_oldest_in_window. cbv zeta.
  destruct (_ <=? _)%nat; [reflexivity|].
  destruct (nth_error _ _); [|reflexivity]. destruct (dt_ltb _ _); reflexivity.
Qed.

Lemma has_snapshot_snd c now p :
  snd (has_snapshop_in_last_period localoff c now p) = sort c.
Proof.
  unfold has_snapshop_in_last_period.
  pose proof (find_oldest_in_window_snd c (prev_period localoff p now) now) as H.
  destruct (find_oldest_in_window _ _ _) as [r c']. exact H.
Qed.

Lemma has_snapshot_fst c now p :
  fst (has_snapshop_in_last_period localoff c now p)
  = match find_oldest_snapshot c (prev_period localoff p now) now with
    | Some _ => true
    | None => false
    end.
Proof.
  unfold has_snapshop_in_last_period, find_oldest_snapshot, find_oldest_in_window.
  cbv zeta. destruct (_ <=? _)%nat; [reflexivity|].
  destruct (nth_error _ _) eqn:E; [|reflexivity].
  destruct (dt_ltb _ _); [|reflexivity]. cbn. rewrite E. reflexivity.
Qed.

Lemma has_snapshot_sort c now p :
  fst (has_snapshop_in_last_period localoff (sort c) now p)
  = fst (has_snapshop_in_last_period localoff c now p).
Proof.
  unfold has_snapshop_in_last_period. rewrite find_oldest_in_window_sort.
  reflexivity.
Qed.

Lemma all_have_snapshot_eq now cfg ps : forall c,
  fst (all_have_snapshot localoff c now cfg ps)
  = forallb (fun p => fst (has_snapshop_in_last_period localoff c now p))
      (filter (enabled cfg) ps)
  /\ (snd (all_have_snapshot localoff c now cfg ps) = c
      \/ snd (all_have_snapshot localoff c now cfg ps) = sort c).
Proof.
  induction ps as [|p ps IH]; intros c; cbn [all_have_snapshot filter].
  - split; [reflexivity|left; reflexivity].
  - unfold enabled at 1. destruct (cfg_get cfg p 0 >? 0).
    + cbn [forallb].
      pose proof (has_snapshot_snd c now p) as S.
      destruct (has_snapshop_in_last_period localoff c now p) as [b c'].
      cbn [fst snd] in *. subst c'. destruct b; cbn [andb].
      * destruct (IH (sort c)) as [A B]. rewrite A. split.
        -- apply forallb_ext. intros q. apply has_snapshot_sort.
        -- right. rewrite sort_sort in B. destruct B; assumption.
      * split; [reflexivity|right; reflexivity].
    + apply IH.
Qed.

Lemma prev_hour_own now :
  round_beginning_hour (prev_hour now) = prev_hour now
  /\ instant now - timedelta_hours 1 <= instant (prev_hour now) < instant now.
Proof.
  unfold prev_hour, minute, second, microsecond. rewrite clock_zero.
  destruct now as [w o].
  unfold round_beginning_hour, replace_minute_second_microsecond_0, dt_sub,
    instant, timedelta_hours. cbn [wall utcoff].
  destruct (Z.eqb_spec (w mod US_PER_HOUR) 0) as [E|E]; cbn [negb wall utcoff];
    revert E; unfold_time; intros E.
  - split; [f_equal; dlia|lia].
  - split; [f_equal; dlia|dlia].
Qed.

Lemma has_snapshot_hourly_iff snaps now :
  (fst (has_snapshop_in_last_period localoff (collection_of snaps) now hourly) = true
   <-> exists x, In x snaps
                 /\ instant (prev_hour now) <= instant (key x) < instant now)
  /\ instant now - timedelta_hours 1 <= instant (prev_hour now) < instant now.
Proof.
  destruct (prev_hour_own now) as [R B]. split; [|exact B].
  rewrite has_snapshot_fst. cbn [prev_period].
  pose proof (find_oldest_snapshot_collection_of snaps (prev_hour now) now) as H.
  rewrite R in H.
  destruct (find_oldest_snapshot (collection_of snaps) (prev_hour now) now) as [s|].
  - destruct H as (I & W & _). split; [|reflexivity]. intros _. exists s. auto.
  - split; [discriminate|]. intros (x & I & W). specialize (H x I). lia.
Qed.

(** X5. [has_snapshop_in_last_period(now, 'hourly')] answers for the clock
    hour of [now], not for the last sixty minutes: it is true exactly when
    some snapshot has its key at or after [prev_hour(now)] and before [now],
    where [prev_hour(now)] is less than [now] and at most one hour before it. *)
Theorem has_snapshot_in_last_hour snaps now :
  (fst (has_snapshop_in_last_period localoff (collection_of snaps) now hourly) = true
   <-> exists x, In x snaps
                 /\ instant (prev_hour now) <= instant (key x) < instant now)
  /\ instant now - timedelta_hours 1 <= instant (prev_hour now) < instant now.
Proof. exact (has_snapshot_hourly_iff snaps now). Qed.

Lemma key_le_ts x :
  key x = round_beginning_hour (ts x) -> instant (key x) <= instant (ts x).
Proof.
  clear localoff. intros ->. destruct (ts x) as [w o].
  unfold round_beginning_hour, replace_minute_second_microsecond_0, instant.
  cbn [wall utcoff]. unfold_time. dlia.
Qed.

(** X6. When every snapshot was taken more than one hour before [now],
    [has_snapshop_in_last_period(now, 'hourly')] is false. *)
Theorem has_snapshot_older_than_an_hour snaps now :
  (forall x, In x snaps -> key x = round_beginning_hour (ts x)) ->
  (forall x, In x snaps -> instant (ts x) < instant now - timedelta_hours 1) ->
  fst (has_snapshop_in_last_period localoff (collection_of snaps) now hourly) = false.
Proof.
  intros K O. apply not_true_iff_false. intros T.
  apply has_snapshot_hourly_iff in T. destruct T as (x & I & W).
  pose proof (key_le_ts x (K x I)). pose proof (O x I).
  destruct (prev_hour_own now) as [_ B]. lia.
Qed.

Lemma all_disabled now cfg ps : forall c,
  (forall p, In p ps -> cfg_get cfg p 0 <= 0) ->
  all_have_snapshot localoff c now cfg ps = (true, c).
Proof.
  induction ps as [|p ps IH]; intros c D; cbn [all_have_snapshot]; [reflexivity|].
  destruct (Z.gtb_spec (cfg_get cfg p 0) 0) as [G|G].
  - specialize (D p (or_introl eq_refl)). lia.
  - apply IH. intros q Hq. apply D. right. exact Hq.
Qed.

Lemma has_snapshot_empty now p :
  has_snapshop_in_last_period localoff empty_collection now p
  = (false, empty_collection).
Proof. reflexivity. Qed.

Lemma all_have_snapshot_empty now cfg ps :
  (exists p, In p ps /\ cfg_get cfg p 0 > 0) ->
  all_have_snapshot localoff empty_collection now cfg ps = (false, empty_collection).
Proof.
  induction ps as [|q ps IH]; intros (p & I & G); [destruct I|].
  cbn [all_have_snapshot]. destruct (Z.gtb_spec (cfg_get cfg q 0) 0) as [Gq|Gq].
  - rewrite has_snapshot_empty. reflexivity.
  - apply IH. exists p. split; [|exact G]. destruct I as [->|I]; [lia|exact I].
Qed.

Lemma mark_period_empty fuel now p n :
  mark_period localoff fuel empty_collection now p n = Some empty_collection.
Proof.
  unfold mark_period. change (sort empty_collection) with empty_collection.
  destruct fuel; cbn [mark_loop]; unfold mark_guard; cbn [collection empty_collection];
    rewrite andb_false_r; reflexivity.
Qed.

Lemma mark_all_empty fuel now cfg ps :
  mark_all localoff fuel empty_collection now cfg ps = Some empty_collection.
Proof.
  induction ps as [|p ps IH]; cbn [mark_all]; [reflexivity|].
  destruct (cfg p); [rewrite mark_period_empty|]; exact IH.
Qed.

Lemma In_PERIOD_KEYS p : In p PERIOD_KEYS.
Proof. destruct p; cbn; tauto. Qed.

(** X7. The test of [main] for a new snapshot: although [all] stops at the
    first period without a recent snapshot, and although each call sorts the
    collection, its value is the conjunction of
    [has_snapshop_in_last_period(now, period)] on the collection as it was,
    over the periods whose configured count is positive; when it is true,
    nothing is marked. *)
Theorem snapshot_due_decision c now cfg :
  fst (all_have_snapshot localoff c now cfg PERIOD_KEYS)
  = forallb (fun p => fst (has_snapshop_in_last_period localoff c now p))
      (filter (enabled cfg) PERIOD_KEYS)
  /\ (snd (all_have_snapshot localoff c now cfg PERIOD_KEYS) = c
      \/ snd (all_have_snapshot localoff c now cfg PERIOD_KEYS) = sort c)
  /\ (forall fuel,
        fst (all_have_snapshot localoff c now cfg PERIOD_KEYS) = true ->
        main_decide localoff fuel c now cfg
        = Some (false, snd (all_have_snapshot localoff c now cfg PERIOD_KEYS))).
Proof.
  destruct (all_have_snapshot_eq now cfg PERIOD_KEYS c) as [A B].
  split; [exact A|]. split; [exact B|].
  clear A B. intros fuel T. unfold main_decide.
  destruct (all_have_snapshot localoff c now cfg PERIOD_KEYS) as [b c'].
  cbn [fst snd] in *. rewrite T. reflexivity.
Qed.

(** X8. When no period has a positive count (absent, zero or negative),
    [main] finds no snapshot due, whatever the existing snapshots are: no
    snapshot is taken, and the collection is left as it was, nothing
    marked and nothing sorted. *)
Theorem no_period_enabled c now cfg fuel :
  (forall p, cfg_get cfg p 0 <= 0) ->
  main_decide localoff fuel c now cfg = Some (false, c).
Proof.
  intros D. unfold main_decide.
  rewrite (all_disabled now cfg PERIOD_KEYS c (fun p _ => D p)). reflexivity.
Qed.

(** X9. With no existing snapshot and at least one period of positive count,
    [main] finds a snapshot due, and the marking that follows ends at once
    with the empty collection, for whatever counts are configured. *)
Theorem empty_collection_due now cfg fuel :
  (exists p, cfg_get cfg p 0 > 0) ->
  main_decide localoff fuel empty_collection now cfg = Some (true, empty_collection).
Proof.
  intros (p & G). unfold main_decide.
  rewrite (all_have_snapshot_empty now cfg PERIOD_KEYS).
  - cbn [negb]. rewrite mark_all_empty. reflexivity.
  - exists p. split; [apply In_PERIOD_KEYS|exact G].
Qed.

End Decision.

Lemma has_snapshot_in_last_hour_witness :
  fst (has_snapshop_in_last_period cet_2019
         (collection_of [ExistingSnapshot_init (utc 2019 12 26 13 31 0 0)])
         (utc 2019 12 26 14 30 0 0) hourly) = true
  <-> exists x, In x [ExistingSnapshot_init (utc 2019 12 26 13 31 0 0)]
                /\ instant (prev_hour (utc 2019 12 26 14 30 0 0)) <= instant (key x)
                   < instant (utc 2019 12 26 14 30 0 0).
Proof.
  exact (proj1 (has_snapshot_in_last_hour cet_2019
                  [ExistingSnapshot_init (utc 2019 12 26 13 31 0 0)]
                  (utc 2019 12 26 14 30 0 0))).
Defined.

Lemma has_snapshot_older_than_an_hour_witness :
  fst (has_snapshop_in_last_period cet_2019
         (collection_of [ExistingSnapshot_init (utc 2019 12 26 13 29 0 0)])
         (utc 2019 12 26 14 30 0 0) hourly) = false.
Proof.
  apply (has_snapshot_older_than_an_hour cet_2019
           [ExistingSnapshot_init (utc 2019 12 26 13 29 0 0)]
           (utc 2019 12 26 14 30 0 0)).
  - intros x [<-|[]]. reflexivity.
  - intros x [<-|[]]. vm_compute. reflexivity.
Defined.

Lemma no_period_enabled_witness :
  main_decide cet_2019 0 mark_period_collection (utc 2019 12 26 14 30 0 0)
    (fun p => match p with hourly => Some 0 | daily => Some (-1) | _ => None end)
  = Some (false, mark_period_collection).
Proof.
  apply (no_period_enabled cet_2019 mark_period_collection
           (utc 2019 12 26 14 30 0 0)
           (fun p => match p with hourly => Some 0 | daily => Some (-1) | _ => None end)
           0).
  intros p. destruct p; vm_compute; discriminate.
Defined.

Lemma empty_collection_due_witness :
  main_decide cet_2019 0 empty_collection (utc 2019 12 26 14 30 0 0)
    (fun p => match p with weekly => Some 2 | _ => None end)
  = Some (true, empty_collection).
Proof.
  apply (empty_collection_due cet_2019 (utc 2019 12 26 14 30 0 0)
           (fun p => match p with weekly => Some 2 | _ => None end) 0).
  exists weekly. vm_compute. reflexivity.
Defined.

Lemma prev_period_round_hour localoff p now :
  dst_zone localoff -> whole_hour now ->
  round_beginning_hour (prev_period localoff p now) = prev_period localoff p now.
Proof.
  intros Z W.
  pose proof (prev_period_whole_hour localoff Z p now W) as W'.
  destruct (prev_period_at_hour localoff Z p now W) as [U E].
  rewrite (round_hour_at _ W'), E.
  cbn [utcoff at_hour]. rewrite hour_index_at_hour. reflexivity.
Qed.

(** X4. In a zone with one daylight-saving hour,
    [has_snapshop_in_last_period(now, period)] is true exactly when some
    snapshot has its key at or after [prev_period(period, now)] and before
    [now]; the call changes the collection only by sorting it. *)
Theorem has_snapshot_in_last_period_iff localoff snaps now p :
  dst_zone localoff -> whole_hour now ->
  (fst (has_snapshop_in_last_period localoff (collection_of snaps) now p) = true
   <-> exists x, In x snaps
         /\ instant (prev_period localoff p now) <= instant (key x) < instant now)
  /\ snd (has_snapshop_in_last_period localoff (collection_of snaps) now p)
     = sort (collection_of snaps).
Proof.
  intros Z W. split; [|apply has_snapshot_snd].
  rewrite has_snapshot_fst.
  pose proof (find_oldest_snapshot_collection_of snaps
                (prev_period localoff p now) now) as H.
  rewrite (prev_period_round_hour localoff p now Z W) in H.
  destruct (find_oldest_snapshot (collection_of snaps)
              (prev_period localoff p now) now) as [s|].
  - destruct H as (I & R & _). split; [|reflexivity]. intros _. exists s. auto.
  - split; [discriminate|]. intros (x & I & R). specialize (H x I). lia.
Qed.

Lemma has_snapshot_in_last_period_iff_witness :
  fst (has_snapshop_in_last_period cet_2019
         (collection_of [ExistingSnapshot_init (plus0100 2019 12 23 0 30 0)])
         (utc 2019 12 26 14 30 0 0) weekly) = true.
Proof.
  apply (has_snapshot_in_last_period_iff cet_2019
           [ExistingSnapshot_init (plus0100 2019 12 23 0 30 0)]
           (utc 2019 12 26 14 30 0 0) weekly cet_2019_dst_zone).
  - reflexivity.
  - exists (ExistingSnapshot_init (plus0100 2019 12 23 0 30 0)).
    split; [left; reflexivity|]. vm_compute. split; [discriminate|reflexivity].
Defined.

(** ** What mark_period marks *)

Lemma keep_nth_count i : forall l,
  (List.length (filter is_kept (keep_nth i l))
   <= S (List.length (filter is_kept l)))%nat.
Proof.
  induction i as [|i IH]; intros [|x l]; cbn; try lia.
  - destruct (is_kept x); cbn; lia.
  - specialize (IH l). destruct (is_kept x); cbn; lia.
Qed.

Lemma keep_at_count i c : (count_kept (keep_at i c) <= S (count_kept c))%nat.
Proof. apply keep_nth_count. Qed.

Lemma filter_perm {A : Type} (f : A -> bool) l l' :
  Permutation l l' -> Permutation (filter f l) (filter f l').
Proof.
  induction 1 as [|x l l' P IH|x y l|l l' l'' P1 IH1 P2 IH2]; cbn.
  - reflexivity.
  - destruct (f x); [apply perm_skip|]; assumption.
  - destruct (f x), (f y); try reflexivity. apply perm_swap.
  - etransitivity; eassumption.
Qed.

Lemma count_kept_sort c : count_kept (sort c) = count_kept c.
Proof.
  unfold sort. destruct (sorted c); [reflexivity|]. unfold count_kept. cbn [collection].
  apply Permutation_length, filter_perm, sort_by_key_perm.
Qed.

Lemma keep_nth_In i : forall l x,
  In x (keep_nth i l) ->
  In x l \/ exists s, nth_error l i = Some s /\ x = keep s.
Proof.
  induction i as [|i IH]; intros [|y l] x H; cbn in *; try tauto.
  - destruct H as [<-|H]; [right; eauto|tauto].
  - destruct H as [<-|H]; [tauto|]. destruct (IH l x H) as [I|I]; tauto.
Qed.

Lemma find_oldest_some c b e i :
  sorted c = true ->
  fst (find_oldest_in_window c b e) = Some i ->
  exists s, nth_error (collection c) i = Some s /\ instant (key s) < instant e.
Proof.
  intros S. unfold find_oldest_in_window. rewrite (sort_sorted c S). cbv zeta.
  destruct (_ <=? _)%nat; [discriminate|].
  destruct (nth_error (collection c) (bisect_left _ _)) as [s|] eqn:E; [|discriminate].
  unfold dt_ltb. destruct (Z.ltb_spec (instant (key s)) (instant e)); [|discriminate].
  cbn. intros [= <-]. eauto.
Qed.

Section Marks.

Variable localoff : Z -> Z.

Lemma mark_guard_pos c e n : mark_guard c e n = true -> 0 < n.
Proof. unfold mark_guard. intros H. apply andb_prop in H as [H _]. lia. Qed.

Lemma mark_loop_budget fuel p : forall c e n r,
  sorted c = true ->
  mark_loop localoff fuel c p e n = Some r ->
  (count_kept r <= count_kept c + Z.to_nat n)%nat.
Proof.
  induction fuel as [|fuel IH]; intros c e n r S.
  - rewrite mark_loop_0. destruct (mark_guard c e n); [discriminate|].
    intros [= <-]. lia.
  - rewrite mark_loop_step by exact S. destruct (mark_guard c e n) eqn:G.
    + apply mark_guard_pos in G.
      destruct (fst (find_oldest_in_window c (prev_period localoff p e) e)) as [i|].
      * intros H. apply IH in H; [|exact S].
        pose proof (keep_at_count i c). lia.
      * intros H. apply IH in H; [|exact S]. lia.
    + intros [= <-]. lia.
Qed.

Lemma mark_loop_no_count fuel c p e n :
  n <= 0 -> mark_loop localoff fuel c p e n = Some c.
Proof.
  intros N. assert (G : mark_guard c e n = false).
  { unfold mark_guard. destruct (Z.gtb_spec n 0); [lia|reflexivity]. }
  destruct fuel; cbn [mark_loop]; rewrite G; reflexivity.
Qed.

Lemma mark_period_budget_le fuel c now p n r :
  mark_period localoff fuel c now p n = Some r ->
  (count_kept r <= count_kept c + Z.to_nat n)%nat
  /\ (n <= 0 -> r = sort c).
Proof.
  unfold mark_period. intros H. split.
  - rewrite <- (count_kept_sort c).
    apply (mark_loop_budget fuel p (sort c) now n r (sorted_sort c) H).
  - intros N. rewrite (mark_loop_no_count fuel (sort c) p now n N) in H.
    congruence.
Qed.

(** X10. [mark_period(now, period, nb_kept)] marks at most [nb_kept]
    snapshots more than were marked before, and with [nb_kept <= 0] it only
    sorts the collection. *)
Theorem mark_period_budget fuel c now p n r :
  mark_period localoff fuel c now p n = Some r ->
  (count_kept r <= count_kept c + Z.to_nat n)%nat
  /\ (n <= 0 -> r = sort c).
Proof. exact (mark_period_budget_le fuel c now p n r). Qed.








End Marks.

Lemma mark_period_budget_witness :
  exists r,
    mark_period cet_2019 5
      (collection_of [ExistingSnapshot_init (plus0100 2019 12 26 15 2 42);
                      ExistingSnapshot_init (plus0100 2019 12 26 15 40 0)])
      (utc 2019 12 26 15 0 0 0) hourly 1 = Some r
    /\ (count_kept r
        <= count_kept
             (collection_of [ExistingSnapshot_init (plus0100 2019 12 26 15 2 42);
                             ExistingSnapshot_init (plus0100 2019 12 26 15 40 0)])
           + Z.to_nat 1)%nat.
Proof.
  eexists. split;
    [|refine (proj1 (mark_period_budget cet_2019 5
               (collection_of [ExistingSnapshot_init (plus0100 2019 12 26 15 2 42);
                               ExistingSnapshot_init (plus0100 2019 12 26 15 40 0)])
               (utc 2019 12 26 15 0 0 0) hourly 1 _ _))];
    vm_compute; reflexivity.
Defined.


Section MarksBefore.

Variable localoff : Z -> Z.
Hypothesis zone : dst_zone localoff.

Lemma sort_In c x : In x (collection (sort c)) <-> In x (collection c).
Proof.
  unfold sort. destruct (sorted c); [reflexivity|]. apply sort_by_key_In.
Qed.

Lemma mark_loop_before fuel p : forall c e n r,
  sorted c = true -> whole_hour e ->
  mark_loop localoff fuel c p e n = Some r ->
  forall x, In x (collection r) ->
    In x (collection c)
    \/ (instant (key x) < instant e /\ exists s, In s (collection c) /\ x = keep s).
Proof.
  induction fuel as [|fuel IH]; intros c e n r S W.
  - rewrite mark_loop_0. destruct (mark_guard c e n); [discriminate|].
    intros [= <-] x Hx. left. exact Hx.
  - rewrite mark_loop_step by exact S. destruct (mark_guard c e n).
    2:{ intros [= <-] x Hx. left. exact Hx. }
    pose proof (prev_period_lt localoff zone p e W) as Lt.
    pose proof (prev_period_whole_hour localoff zone p e W) as W'.
    destruct (fst (find_oldest_in_window c (prev_period localoff p e) e)) as [i|] eqn:F.
    + destruct (find_oldest_some c _ e i S F) as (s & Ns & Ks).
      intros H x Hx.
      destruct (IH (keep_at i c) _ _ r S W' H x Hx) as [I|(K & s' & I & ->)].
      * apply keep_nth_In in I. destruct I as [I|(s' & Ns' & ->)]; [left; exact I|].
        right. rewrite Ns in Ns'. injection Ns' as <-.
        split; [exact Ks|]. exists s. split; [eapply nth_error_In, Ns|reflexivity].
      * right. split; [cbn [key keep] in *; lia|].
        apply keep_nth_In in I. destruct I as [I|(s'' & Ns'' & ->)].
        -- exists s'. split; [exact I|reflexivity].
        -- exists s''. split; [eapply nth_error_In, Ns''|reflexivity].
    + intros H x Hx.
      destruct (IH c _ _ r S W' H x Hx) as [I|(K & s' & I & ->)].
      * left. exact I.
      * right. split; [lia|]. exists s'. split; [exact I|reflexivity].
Qed.

End MarksBefore.

(** X12. In a zone with one daylight-saving hour, [mark_period] only sets
    marks, and only on snapshots whose key is before [now]: every record of
    the result is a record of the collection as it was, or such a record
    with its mark set and its key before [now]. *)
Theorem mark_period_before_now localoff fuel c now p n r :
  dst_zone localoff -> whole_hour now ->
  mark_period localoff fuel c now p n = Some r ->
  forall x, In x (collection r) ->
    In x (collection c)
    \/ (instant (key x) < instant now
        /\ exists s, In s (collection c) /\ x = keep s).
Proof.
  intros Z W H x Hx.
  destruct (mark_loop_before localoff Z fuel p (sort c) now n r (sorted_sort c) W H x Hx)
    as [I|(K & s & I & E)].
  - left. apply sort_In, I.
  - right. split; [exact K|]. exists s. split; [apply sort_In, I|exact E].
Qed.

Lemma mark_period_before_now_witness :
  In (keep (ExistingSnapshot_init (plus0100 2019 12 26 15 2 42)))
     [ExistingSnapshot_init (plus0100 2019 12 26 15 2 42);
      ExistingSnapshot_init (plus0100 2019 12 26 15 40 0)]
  \/ (instant (key (keep (ExistingSnapshot_init (plus0100 2019 12 26 15 2 42))))
      < instant (utc 2019 12 26 15 0 0 0)
      /\ exists s,
           In s [ExistingSnapshot_init (plus0100 2019 12 26 15 2 42);
                 ExistingSnapshot_init (plus0100 2019 12 26 15 40 0)]
           /\ keep (ExistingSnapshot_init (plus0100 2019 12 26 15 2 42)) = keep s).
Proof.
  refine (mark_period_before_now cet_2019 5
            (collection_of [ExistingSnapshot_init (plus0100 2019 12 26 15 2 42);
                            ExistingSnapshot_init (plus0100 2019 12 26 15 40 0)])
            (utc 2019 12 26 15 0 0 0) hourly 1 _ cet_2019_dst_zone _ _
            (keep (ExistingSnapshot_init (plus0100 2019 12 26 15 2 42))) _).
  - reflexivity.
  - vm_compute. reflexivity.
  - vm_compute. left. reflexivity.
Defined.

(** ** The beginnings of the periods on the local clock *)

Lemma md_table_month k leap : 0 <= k <= 364 -> md_same_month k leap = true.
Proof.
  intros Hk.
  assert (A : forallb (fun i => md_same_month (Z.of_nat i) true
                                && md_same_month (Z.of_nat i) false)
                (seq 0 365) = true) by (vm_compute; reflexivity).
  rewrite forallb_forall in A.
  specialize (A (Z.to_nat k)). rewrite Z2Nat.id in A by lia.
  assert (I : In (Z.to_nat k) (seq 0 365)) by (apply in_seq; lia).
  apply A in I. apply andb_true_iff in I. destruct leap; tauto.
Qed.

Lemma year_step n :
  pos_year (n + 1) <> 0 ->
  fst (fst (Calendar.ord2ymd (n + 1))) = fst (fst (Calendar.ord2ymd n)).
Proof.
  rewrite pos_year_idx, !ord2ymd_decomp. cbn [fst snd].
  pose proof (decomp_step n) as (_ & _ & S). cbv zeta in S. lia.
Qed.

Lemma month_step n :
  pos_month (n + 1) <> 0 ->
  fst (Calendar.ord2ymd (n + 1)) = fst (Calendar.ord2ymd n).
Proof.
  unfold pos_month. rewrite !ord2ymd_decomp. cbn [fst snd].
  pose proof (decomp_step n) as (R & L & S). cbv zeta in S, R, L.
  set (a := decomp n) in *. set (b := decomp (n + 1)) in *.
  intros D. destruct S as [(Ei & El & Ey & E364)|(Ei & _ & _)].
  - pose proof (decomp_step (n + 1)) as (R' & _). cbv zeta in R'. fold b in R'.
    assert (Hk : 0 <= yd_idx a <= 364) by lia.
    pose proof (md_table_month (yd_idx a) (yd_leap a) Hk) as T.
    unfold md_same_month in T. rewrite Ei, El, Ey in *.
    destruct (md (yd_idx a) (yd_leap a)) as [m d].
    destruct (md (yd_idx a + 1) (yd_leap a)) as [m' d']. cbn [fst snd] in *.
    destruct (Z.eqb_spec d' 1); [lia|]. destruct (Z.eqb_spec m' m); [|discriminate].
    congruence.
  - exfalso. apply D. rewrite Ei.
    pose proof (md_table_prop 0 (yd_leap b) ltac:(lia)) as (_ & _ & _ & T0).
    destruct T0 as [_ T0]. specialize (T0 eq_refl). lia.
Qed.

Section Back.

Variable pos : Z -> Z.
Hypothesis pos_ok : period_pos pos.
Variable A : Type.
Variable f : Z -> A.
Hypothesis f_step : forall n, pos (n + 1) <> 0 -> f (n + 1) = f n.

Lemma back_same n k : 0 <= k <= pos n -> f (n - k) = f n.
Proof.
  intros [Hk Hle]. revert Hle. pattern k. apply natlike_ind; [| |exact Hk].
  - intros _. rewrite Z.sub_0_r. reflexivity.
  - intros x Hx IH Hle. rewrite <- IH by lia.
    pose proof (pos_back pos pos_ok n x ltac:(lia)) as P.
    replace (n - x) with (n - Z.succ x + 1) in P |- * by lia.
    symmetry. apply f_step. lia.
Qed.

End Back.

Lemma month_start n :
  Calendar.ord2ymd (n - pos_month n)
  = (fst (fst (Calendar.ord2ymd n)), snd (fst (Calendar.ord2ymd n)), 1).
Proof.
  pose proof pos_month_ok as [N _].
  pose proof (back_same pos_month pos_month_ok _ (fun n => fst (Calendar.ord2ymd n))
                month_step n (pos_month n) ltac:(specialize (N n); lia)) as E.
  cbv beta in E.
  pose proof (pos_back pos_month pos_month_ok n (pos_month n)
                ltac:(specialize (N n); lia)) as P.
  unfold pos_month at 1 in P.
  destruct (Calendar.ord2ymd (n - pos_month n)) as [[y m] d].
  destruct (Calendar.ord2ymd n) as [[y' m'] d']. cbn [fst snd] in *.
  injection E as -> ->. f_equal. lia.
Qed.

Lemma year_start_ord n :
  Calendar.ord2ymd (n - pos_year n) = (fst (fst (Calendar.ord2ymd n)), 1, 1).
Proof.
  pose proof pos_year_ok as [N _].
  pose proof (back_same pos_year pos_year_ok _
                (fun n => fst (fst (Calendar.ord2ymd n)))
                year_step n (pos_year n) ltac:(specialize (N n); lia)) as E.
  cbv beta in E.
  pose proof (pos_back pos_year pos_year_ok n (pos_year n)
                ltac:(specialize (N n); lia)) as P.
  rewrite Z.sub_diag in P. apply Z.eqb_eq in P. rewrite <- jan1_iff in P.
  apply andb_true_iff in P. destruct P as [P1 P2].
  apply Z.eqb_eq in P1, P2.
  destruct (Calendar.ord2ymd (n - pos_year n)) as [[y m] d].
  destruct (Calendar.ord2ymd n) as [[y' m'] d']. cbn [fst snd] in *.
  congruence.
Qed.

Section HourDate.

Variable oh : Z -> Z.
Hypothesis zone : hl_zone oh.
Variable pos : Z -> Z.
Hypothesis pos_ok : period_pos pos.

Lemma rph_date U :
  hl_date oh (hl_round_period oh pos U) = hl_date oh U - pos (hl_date oh U).
Proof.
  unfold hl_round_period. cbv zeta.
  pose proof (rdh_spec oh zone U) as (Br & Hr & _).
  pose proof (rdh_date oh zone U) as Dr.
  set (r := hl_round_day oh U) in *. rewrite <- Dr.
  set (n := hl_date oh r). set (p := pos n).
  assert (Hp : 0 <= p) by (destruct pos_ok as [N _]; apply N).
  destruct (Z.eqb_spec p 0) as [E0|E0]; [fold n; lia|].
  set (t := r - (24 * (p - 1) + 12)).
  pose proof (oh_diff oh zone t r) as D.
  rewrite (rdh_date oh zone t).
  subst n t. unfold hl_date, day_boundary, hl_local in *. dlia.
Qed.

Lemma rdh_gap U : 0 <= U - hl_round_day oh U <= 24.
Proof.
  pose proof (rdh_spec oh zone U) as (_ & Hr & E).
  pose proof (oh_diff oh zone U (hl_round_day oh U)) as D.
  unfold hl_local in E. dlia.
Qed.

End HourDate.

Section Local.

Variable localoff : Z -> Z.
Hypothesis zone : dst_zone localoff.

Local Abbreviation oh := (hour_offsets localoff).

Lemma toordinal_round p t :
  whole_hour t ->
  toordinal (astimezone localoff (round_beginning localoff p t))
  = hl_date oh (hl_round oh p (hour_index t)).
Proof.
  intros W. rewrite (round_beginning_eq localoff zone p t W).
  apply toordinal_astimezone, zone.
Qed.

Lemma on_boundary_round p t :
  whole_hour t -> on_boundary localoff p (round_beginning localoff p t) = true.
Proof.
  intros W. apply (on_boundary_iff localoff zone).
  rewrite (round_beginning_eq localoff zone p t W).
  rewrite instant_at_hour, hour_index_at_hour. split.
  - apply Z.mod_mul. unfold_time. lia.
  - apply hl_round_spec, hl_zone_of, zone.
Qed.

End Local.

Lemma round_beginning_unfold localoff p t :
  match p with
  | hourly => round_beginning_hour t
  | daily => round_beginning_day localoff t
  | weekly => round_beginning_week localoff t
  | monthly => round_beginning_month localoff t
  | yearly => round_beginning_year localoff t
  end = round_beginning localoff p t.
Proof. destruct p; cbn [round_beginning]; reflexivity. Qed.

Lemma on_boundary_clock localoff p u :
  on_boundary localoff p u = true -> p <> hourly ->
  hour (astimezone localoff u) = 0
  /\ minute (astimezone localoff u) = 0
  /\ second (astimezone localoff u) = 0
  /\ microsecond (astimezone localoff u) = 0.
Proof.
  unfold on_boundary. generalize (astimezone localoff u). intros l B N.
  destruct p; [congruence|..];
    repeat rewrite andb_true_iff in B; rewrite !Z.eqb_eq in B; tauto.
Qed.

Lemma on_boundary_first localoff p u :
  on_boundary localoff p u = true ->
  match p with
  | weekly => weekday (astimezone localoff u) = 0
  | monthly => day (astimezone localoff u) = 1
  | yearly => month (astimezone localoff u) = 1 /\ day (astimezone localoff u) = 1
  | _ => True
  end.
Proof.
  unfold on_boundary. generalize (astimezone localoff u). intros l B.
  destruct p; try exact I;
    repeat rewrite andb_true_iff in B; rewrite !Z.eqb_eq in B; tauto.
Qed.

Lemma period_fields localoff p t :
  dst_zone localoff -> whole_hour t -> p <> hourly ->
  hour (astimezone localoff (round_beginning localoff p t)) = 0
  /\ minute (astimezone localoff (round_beginning localoff p t)) = 0
  /\ second (astimezone localoff (round_beginning localoff p t)) = 0
  /\ microsecond (astimezone localoff (round_beginning localoff p t)) = 0.
Proof.
  intros Z W N. apply (on_boundary_clock localoff p); [|exact N].
  apply on_boundary_round; assumption.
Qed.

(** X13. In a zone with one daylight-saving hour, [round_beginning_day(ts)]
    read on the local clock is 00:00:00 of the local date of [ts]; it is
    not after [ts] and less than 25 hours before it. *)
Theorem round_beginning_day_local localoff t :
  dst_zone localoff -> whole_hour t ->
  toordinal (astimezone localoff (round_beginning_day localoff t))
  = toordinal (astimezone localoff t)
  /\ hour (astimezone localoff (round_beginning_day localoff t)) = 0
  /\ minute (astimezone localoff (round_beginning_day localoff t)) = 0
  /\ second (astimezone localoff (round_beginning_day localoff t)) = 0
  /\ microsecond (astimezone localoff (round_beginning_day localoff t)) = 0
  /\ instant (round_beginning_day localoff t) <= instant t
     < instant (round_beginning_day localoff t) + timedelta_hours 25.
Proof.
  intros Z W. pose proof (hl_zone_of localoff Z) as HZ.
  rewrite (round_beginning_unfold localoff daily t).
  split; [|split].
  - rewrite (toordinal_round localoff Z daily t W), (toordinal_local localoff Z).
    apply rdh_date, HZ.
  - apply (period_fields localoff daily t Z W). discriminate.
  - destruct (period_fields localoff daily t Z W ltac:(discriminate))
      as (_ & B1 & B2 & B3).
    repeat (split; [assumption|]).
    pose proof (instant_round_beginning localoff daily t Z W) as E.
    cbn [hl_round] in E. rewrite E.
    pose proof (rdh_gap (hour_offsets localoff) HZ (hour_index t)) as G.
    unfold hour_index, timedelta_hours in *.
    pose proof (Z.div_mod (instant t) US_PER_HOUR ltac:(unfold_time; lia)) as Q.
    pose proof (Z.mod_pos_bound (instant t) US_PER_HOUR ltac:(unfold_time; lia)) as R.
    set (q := instant t / US_PER_HOUR) in *. set (m := instant t mod US_PER_HOUR) in *.
    clearbody q m. revert G Q R. unfold_time. lia.
Qed.

Lemma round_beginning_day_local_witness :
  toordinal (astimezone cet_2019 (round_beginning_day cet_2019 (utc 2019 10 27 0 30 0 0)))
  = toordinal (astimezone cet_2019 (utc 2019 10 27 0 30 0 0))
  /\ hour (astimezone cet_2019 (round_beginning_day cet_2019 (utc 2019 10 27 0 30 0 0))) = 0
  /\ minute (astimezone cet_2019 (round_beginning_day cet_2019 (utc 2019 10 27 0 30 0 0))) = 0
  /\ second (astimezone cet_2019 (round_beginning_day cet_2019 (utc 2019 10 27 0 30 0 0))) = 0
  /\ microsecond (astimezone cet_2019 (round_beginning_day cet_2019 (utc 2019 10 27 0 30 0 0))) = 0
  /\ instant (round_beginning_day cet_2019 (utc 2019 10 27 0 30 0 0))
     <= instant (utc 2019 10 27 0 30 0 0)
     < instant (round_beginning_day cet_2019 (utc 2019 10 27 0 30 0 0))
       + timedelta_hours 25.
Proof.
  apply (round_beginning_day_local cet_2019 (utc 2019 10 27 0 30 0 0) cet_2019_dst_zone).
  reflexivity.
Defined.

(** X14. In a zone with one daylight-saving hour, [round_beginning_week(ts)]
    read on the local clock is 00:00:00 of the Monday of the local week of
    [ts]: its date is the local date of [ts] less the weekday of that date. *)
Theorem round_beginning_week_local localoff t :
  dst_zone localoff -> whole_hour t ->
  toordinal (astimezone localoff (round_beginning_week localoff t))
  = toordinal (astimezone localoff t) - weekday (astimezone localoff t)
  /\ weekday (astimezone localoff (round_beginning_week localoff t)) = 0
  /\ hour (astimezone localoff (round_beginning_week localoff t)) = 0
  /\ minute (astimezone localoff (round_beginning_week localoff t)) = 0
  /\ second (astimezone localoff (round_beginning_week localoff t)) = 0
  /\ microsecond (astimezone localoff (round_beginning_week localoff t)) = 0.
Proof.
  intros Z W. pose proof (hl_zone_of localoff Z) as HZ.
  rewrite (round_beginning_unfold localoff weekly t).
  assert (D : toordinal (astimezone localoff (round_beginning localoff weekly t))
              = toordinal (astimezone localoff t) - weekday (astimezone localoff t)).
  { rewrite (toordinal_round localoff Z weekly t W). unfold weekday.
    rewrite (toordinal_local localoff Z). cbn [hl_round].
    apply (rph_date _ HZ pos_week pos_week_ok). }
  split; [exact D|]. split.
  - apply (on_boundary_first localoff weekly), on_boundary_round; assumption.
  - apply (period_fields localoff weekly t Z W). discriminate.
Qed.

Lemma round_beginning_week_local_witness :
  toordinal (astimezone cet_2019 (round_beginning_week cet_2019 (utc 2019 3 31 22 30 0 0)))
  = toordinal (astimezone cet_2019 (utc 2019 3 31 22 30 0 0))
    - weekday (astimezone cet_2019 (utc 2019 3 31 22 30 0 0))
  /\ weekday (astimezone cet_2019 (round_beginning_week cet_2019 (utc 2019 3 31 22 30 0 0))) = 0
  /\ hour (astimezone cet_2019 (round_beginning_week cet_2019 (utc 2019 3 31 22 30 0 0))) = 0
  /\ minute (astimezone cet_2019 (round_beginning_week cet_2019 (utc 2019 3 31 22 30 0 0))) = 0
  /\ second (astimezone cet_2019 (round_beginning_week cet_2019 (utc 2019 3 31 22 30 0 0))) = 0
  /\ microsecond (astimezone cet_2019 (round_beginning_week cet_2019 (utc 2019 3 31 22 30 0 0))) = 0.
Proof.
  apply (round_beginning_week_local cet_2019 (utc 2019 3 31 22 30 0 0) cet_2019_dst_zone).
  reflexivity.
Defined.

(** X15. In a zone with one daylight-saving hour, [round_beginning_month(ts)]
    read on the local clock is 00:00:00 of day 1 of the local year and month
    of [ts]. *)
Theorem round_beginning_month_local localoff t :
  dst_zone localoff -> whole_hour t ->
  year (astimezone localoff (round_beginning_month localoff t))
  = year (astimezone localoff t)
  /\ month (astimezone localoff (round_beginning_month localoff t))
     = month (astimezone localoff t)
  /\ day (astimezone localoff (round_beginning_month localoff t)) = 1
  /\ hour (astimezone localoff (round_beginning_month localoff t)) = 0
  /\ minute (astimezone localoff (round_beginning_month localoff t)) = 0
  /\ second (astimezone localoff (round_beginning_month localoff t)) = 0
  /\ microsecond (astimezone localoff (round_beginning_month localoff t)) = 0.
Proof.
  intros Z W. pose proof (hl_zone_of localoff Z) as HZ.
  rewrite (round_beginning_unfold localoff monthly t).
  assert (D : Calendar.ord2ymd
                (toordinal (astimezone localoff (round_beginning localoff monthly t)))
              = (year (astimezone localoff t), month (astimezone localoff t), 1)).
  { rewrite (toordinal_round localoff Z monthly t W). unfold year, month.
    rewrite (toordinal_local localoff Z). cbn [hl_round].
    rewrite (rph_date _ HZ pos_month pos_month_ok). apply month_start. }
  unfold year at 1, month at 1, day. rewrite D. cbn [fst snd].
  repeat (split; [reflexivity|]).
  apply (period_fields localoff monthly t Z W). discriminate.
Qed.

Lemma round_beginning_month_local_witness :
  year (astimezone cet_2019 (round_beginning_month cet_2019 (utc 2019 10 31 23 30 0 0)))
  = year (astimezone cet_2019 (utc 2019 10 31 23 30 0 0))
  /\ month (astimezone cet_2019 (round_beginning_month cet_2019 (utc 2019 10 31 23 30 0 0)))
     = month (astimezone cet_2019 (utc 2019 10 31 23 30 0 0))
  /\ day (astimezone cet_2019 (round_beginning_month cet_2019 (utc 2019 10 31 23 30 0 0))) = 1
  /\ hour (astimezone cet_2019 (round_beginning_month cet_2019 (utc 2019 10 31 23 30 0 0))) = 0
  /\ minute (astimezone cet_2019 (round_beginning_month cet_2019 (utc 2019 10 31 23 30 0 0))) = 0
  /\ second (astimezone cet_2019 (round_beginning_month cet_2019 (utc 2019 10 31 23 30 0 0))) = 0
  /\ microsecond (astimezone cet_2019 (round_beginning_month cet_2019 (utc 2019 10 31 23 30 0 0))) = 0.
Proof.
  apply (round_beginning_month_local cet_2019 (utc 2019 10 31 23 30 0 0) cet_2019_dst_zone).
  reflexivity.
Defined.

(** X16. In a zone with one daylight-saving hour, [round_beginning_year(ts)]
    read on the local clock is 00:00:00 of 1 January of the local year of
    [ts]. *)
Theorem round_beginning_year_local localoff t :
  dst_zone localoff -> whole_hour t ->
  year (astimezone localoff (round_beginning_year localoff t))
  = year (astimezone localoff t)
  /\ month (astimezone localoff (round_beginning_year localoff t)) = 1
  /\ day (astimezone localoff (round_beginning_year localoff t)) = 1
  /\ hour (astimezone localoff (round_beginning_year localoff t)) = 0
  /\ minute (astimezone localoff (round_beginning_year localoff t)) = 0
  /\ second (astimezone localoff (round_beginning_year localoff t)) = 0
  /\ microsecond (astimezone localoff (round_beginning_year localoff t)) = 0.
Proof.
  intros Z W. pose proof (hl_zone_of localoff Z) as HZ.
  rewrite (round_beginning_unfold localoff yearly t).
  assert (D : Calendar.ord2ymd
                (toordinal (astimezone localoff (round_beginning localoff yearly t)))
              = (year (astimezone localoff t), 1, 1)).
  { rewrite (toordinal_round localoff Z yearly t W). unfold year.
    rewrite (toordinal_local localoff Z). cbn [hl_round].
    rewrite (rph_date _ HZ pos_year pos_year_ok). apply year_start_ord. }
  unfold year at 1, month, day. rewrite D. cbn [fst snd].
  repeat (split; [reflexivity|]).
  apply (period_fields localoff yearly t Z W). discriminate.
Qed.

Lemma round_beginning_year_local_witness :
  year (astimezone cet_2019 (round_beginning_year cet_2019 (utc 2019 12 31 23 30 0 0)))
  = year (astimezone cet_2019 (utc 2019 12 31 23 30 0 0))
  /\ month (astimezone cet_2019 (round_beginning_year cet_2019 (utc 2019 12 31 23 30 0 0))) = 1
  /\ day (astimezone cet_2019 (round_beginning_year cet_2019 (utc 2019 12 31 23 30 0 0))) = 1
  /\ hour (astimezone cet_2019 (round_beginning_year cet_2019 (utc 2019 12 31 23 30 0 0))) = 0
  /\ minute (astimezone cet_2019 (round_beginning_year cet_2019 (utc 2019 12 31 23 30 0 0))) = 0
  /\ second (astimezone cet_2019 (round_beginning_year cet_2019 (utc 2019 12 31 23 30 0 0))) = 0
  /\ microsecond (astimezone cet_2019 (round_beginning_year cet_2019 (utc 2019 12 31 23 30 0 0))) = 0.
Proof.
  apply (round_beginning_year_local cet_2019 (utc 2019 12 31 23 30 0 0) cet_2019_dst_zone).
  reflexivity.
Defined.

Lemma year_boundary_month oh b :
  period_boundary oh pos_year b -> period_boundary oh pos_month b.
Proof.
  intros [D P]. split; [exact D|].
  apply Z.eqb_eq in P. rewrite <- jan1_iff in P.
  apply andb_true_iff in P as [_ P]. apply Z.eqb_eq in P.
  unfold pos_month. lia.
Qed.

Lemma hl_round_nested oh U :
  hl_zone oh ->
  hl_round oh yearly U <= hl_round oh monthly U
  /\ hl_round oh monthly U <= hl_round oh daily U
  /\ hl_round oh weekly U <= hl_round oh daily U
  /\ hl_round oh daily U <= U.
Proof.
  intros HZ.
  pose proof (hl_round_spec oh yearly U HZ) as (By & Ly & _).
  pose proof (hl_round_spec oh monthly U HZ) as (Bm & Lm & Gm).
  pose proof (hl_round_spec oh weekly U HZ) as (Bw & Lw & _).
  pose proof (hl_round_spec oh daily U HZ) as (_ & Ld & Gd).
  cbn [hl_boundary] in *.
  split; [apply Gm; [apply year_boundary_month, By|exact Ly]|].
  split; [apply Gd; [apply Bm|exact Lm]|].
  split; [apply Gd; [apply Bw|exact Lw]|exact Ld].
Qed.

Lemma hours_le a b : a <= b -> a * US_PER_HOUR <= b * US_PER_HOUR.
Proof. unfold_time. lia. Qed.

(** X17. In a zone with one daylight-saving hour the beginnings are nested:
    the beginning of the year is not after that of the month, which is not
    after that of the day, which is not after that of the hour, which is not
    after [ts]; and the beginning of the week is not after that of the day. *)
Theorem round_beginning_nested localoff t :
  dst_zone localoff -> whole_hour t ->
  instant (round_beginning_year localoff t)
  <= instant (round_beginning_month localoff t)
  /\ instant (round_beginning_month localoff t)
     <= instant (round_beginning_day localoff t)
  /\ instant (round_beginning_week localoff t)
     <= instant (round_beginning_day localoff t)
  /\ instant (round_beginning_day localoff t)
     <= instant (round_beginning_hour t)
  /\ instant (round_beginning_hour t) <= instant t.
Proof.
  intros Z W. pose proof (hl_zone_of localoff Z) as HZ.
  rewrite (round_beginning_unfold localoff yearly t),
    (round_beginning_unfold localoff monthly t),
    (round_beginning_unfold localoff weekly t),
    (round_beginning_unfold localoff daily t).
  pose proof (instant_round_beginning localoff hourly t Z W) as Eh.
  cbn [round_beginning hl_round] in Eh. rewrite Eh.
  rewrite !(instant_round_beginning localoff _ t Z W).
  pose proof (hl_round_nested _ (hour_index t) HZ) as (N1 & N2 & N3 & N4).
  repeat (split; [apply hours_le; assumption|]).
  unfold hour_index.
  pose proof (Z.mul_div_le (instant t) US_PER_HOUR ltac:(unfold_time; lia)). lia.
Qed.

Lemma round_beginning_nested_witness :
  instant (round_beginning_year cet_2019 (utc 2019 10 27 0 30 0 0))
  <= instant (round_beginning_month cet_2019 (utc 2019 10 27 0 30 0 0))
  /\ instant (round_beginning_month cet_2019 (utc 2019 10 27 0 30 0 0))
     <= instant (round_beginning_day cet_2019 (utc 2019 10 27 0 30 0 0))
  /\ instant (round_beginning_week cet_2019 (utc 2019 10 27 0 30 0 0))
     <= instant (round_beginning_day cet_2019 (utc 2019 10 27 0 30 0 0))
  /\ instant (round_beginning_day cet_2019 (utc 2019 10 27 0 30 0 0))
     <= instant (round_beginning_hour (utc 2019 10 27 0 30 0 0))
  /\ instant (round_beginning_hour (utc 2019 10 27 0 30 0 0))
     <= instant (utc 2019 10 27 0 30 0 0).
Proof.
  apply (round_beginning_nested cet_2019 (utc 2019 10 27 0 30 0 0) cet_2019_dst_zone).
  reflexivity.
Defined.

Lemma on_boundary_same localoff p t1 t2 :
  instant t1 = instant t2 ->
  on_boundary localoff p t1 = on_boundary localoff p t2.
Proof.
  intros E. unfold on_boundary, astimezone. rewrite E. reflexivity.
Qed.

(** X18. In a zone with one daylight-saving hour, the results of
    [round_beginning_*] and [prev_period] denote an instant that depends only
    on the instant of the argument, not on the whole-hour offset it is
    written with, and they carry the offset of the argument. *)
Theorem round_beginning_same_instant localoff p t1 t2 :
  dst_zone localoff -> whole_hour t1 -> whole_hour t2 ->
  instant t1 = instant t2 ->
  instant (round_beginning localoff p t1) = instant (round_beginning localoff p t2)
  /\ instant (prev_period localoff p t1) = instant (prev_period localoff p t2)
  /\ utcoff (round_beginning localoff p t1) = utcoff t1
  /\ utcoff (prev_period localoff p t1) = utcoff t1.
Proof.
  intros Z W1 W2 E.
  assert (R : instant (round_beginning localoff p t1)
              = instant (round_beginning localoff p t2)).
  { rewrite !(instant_round_beginning localoff p _ Z) by assumption.
    unfold hour_index. rewrite E. reflexivity. }
  split; [exact R|]. split; [|split].
  - rewrite (prev_period_eq localoff Z p t1 W1), (prev_period_eq localoff Z p t2 W2).
    rewrite (on_boundary_same localoff p t1 t2 E).
    destruct (on_boundary localoff p t2); [|exact R].
    rewrite !instant_at_hour. unfold hour_index. rewrite E. reflexivity.
  - rewrite (round_beginning_eq localoff Z p t1 W1). reflexivity.
  - destruct (prev_period_at_hour localoff Z p t1 W1) as [U ->]. reflexivity.
Qed.

Lemma round_beginning_same_instant_witness :
  instant (round_beginning cet_2019 weekly (utc 2019 12 26 14 1 36 0))
  = instant (round_beginning cet_2019 weekly (plus0100 2019 12 26 15 1 36))
  /\ instant (prev_period cet_2019 weekly (utc 2019 12 26 14 1 36 0))
     = instant (prev_period cet_2019 weekly (plus0100 2019 12 26 15 1 36))
  /\ utcoff (round_beginning cet_2019 weekly (utc 2019 12 26 14 1 36 0))
     = utcoff (utc 2019 12 26 14 1 36 0)
  /\ utcoff (prev_period cet_2019 weekly (utc 2019 12 26 14 1 36 0))
     = utcoff (utc 2019 12 26 14 1 36 0).
Proof.
  apply (round_beginning_same_instant cet_2019 weekly (utc 2019 12 26 14 1 36 0)
           (plus0100 2019 12 26 15 1 36) cet_2019_dst_zone);
    reflexivity.
Defined.

(** ** The key of a snapshot *)

Lemma floor_hour w :
  let k := w / US_PER_HOUR * US_PER_HOUR in
  k <= w < k + US_PER_HOUR
  /\ k mod US_PER_HOUR = 0
  /\ k / US_PER_HOUR = w / US_PER_HOUR
  /\ k / US_PER_DAY = w / US_PER_DAY.
Proof.
  cbv zeta.
  assert (H0 : 0 < US_PER_HOUR) by (unfold_time; lia).
  pose proof (Z.div_mod w US_PER_HOUR ltac:(lia)) as Q.
  pose proof (Z.mod_pos_bound w US_PER_HOUR H0) as R.
  split; [lia|]. split; [apply Z.mod_mul; lia|]. split; [apply Z.div_mul; lia|].
  change US_PER_DAY with (US_PER_HOUR * 24).
  rewrite <- !Z.div_div by lia. rewrite Z.div_mul by lia. reflexivity.
Qed.

(** X19. A new [ExistingSnapshot] is not marked, and its key is the beginning
    of the hour of [ts] on the clock of [ts] itself: the same offset, date
    and hour, with minute, second and microsecond 0; the key is not after
    [ts] and less than one hour before it. *)
Theorem ExistingSnapshot_init_key ts0 :
  is_kept (ExistingSnapshot_init ts0) = false
  /\ ts (ExistingSnapshot_init ts0) = ts0
  /\ utcoff (key (ExistingSnapshot_init ts0)) = utcoff ts0
  /\ toordinal (key (ExistingSnapshot_init ts0)) = toordinal ts0
  /\ hour (key (ExistingSnapshot_init ts0)) = hour ts0
  /\ minute (key (ExistingSnapshot_init ts0)) = 0
  /\ second (key (ExistingSnapshot_init ts0)) = 0
  /\ microsecond (key (ExistingSnapshot_init ts0)) = 0
  /\ instant (key (ExistingSnapshot_init ts0)) <= instant ts0
     < instant (key (ExistingSnapshot_init ts0)) + timedelta_hours 1.
Proof.
  destruct ts0 as [w o]. pose proof (floor_hour w) as (B & M & Hh & Hd).
  unfold ExistingSnapshot_init, round_beginning_hour,
    replace_minute_second_microsecond_0.
  cbn [is_kept ts key wall utcoff].
  unfold toordinal, hour, instant, timedelta_hours. cbn [wall utcoff].
  rewrite Hd, Hh.
  pose proof (clock_zero (w / US_PER_HOUR * US_PER_HOUR)) as C.
  apply Z.eqb_eq in M. rewrite M in C.
  apply andb_true_iff in C as [C C3]. apply andb_true_iff in C as [C1 C2].
  apply Z.eqb_eq in C1, C2, C3.
  unfold minute, second, microsecond. cbn [wall].
  repeat (split; [reflexivity || assumption|]). lia.
Qed.

(** ** Marks of several periods *)

Lemma join_snap_absorb a b : snap_le a b -> join_snap b a = b.
Proof.
  intros (_ & _ & K). destruct b as [t k f]. unfold join_snap. cbn in *. f_equal.
  destruct f; [reflexivity|]. destruct (is_kept a); [symmetry; auto|reflexivity].
Qed.

Lemma join_list_absorb l l' : Forall2 snap_le l l' -> join_list l' l = l'.
Proof.
  induction 1 as [|a b l l' Hab H IH]; cbn; [reflexivity|].
  rewrite (join_snap_absorb a b Hab), IH. reflexivity.
Qed.

Lemma join_absorb c c' : marks_le c c' -> join_marks c' c = c'.
Proof.
  intros [_ F]. destruct c' as [l' s']. unfold join_marks. cbn in *.
  rewrite (join_list_absorb _ _ F). reflexivity.
Qed.

Lemma join_list_keep i : forall l l' lr,
  Forall2 snap_le (keep_nth i l) lr -> Forall2 snap_le l l' ->
  join_list (keep_nth i l') lr = join_list l' lr.
Proof.
  induction i as [|i IH]; intros l l' lr Hr H;
    destruct H as [|a b l l' Hab H]; cbn in *; try reflexivity;
    inversion Hr as [|? x ? lr' Hx Hr']; subst; cbn.
  - f_equal. destruct Hx as (_ & _ & K). cbn in K. unfold join_snap. cbn.
    rewrite (K eq_refl), orb_true_r. reflexivity.
  - f_equal. apply (IH l); assumption.
Qed.

Lemma join_keep i c c' r :
  marks_le (keep_at i c) r -> marks_le c c' ->
  join_marks (keep_at i c') r = join_marks c' r.
Proof.
  intros [_ Fr] [_ F]. unfold join_marks, keep_at. cbn [collection sorted].
  rewrite (join_list_keep i (collection c) (collection c') (collection r) Fr F).
  reflexivity.
Qed.

Lemma join_list_comm l l1 l2 :
  Forall2 snap_le l l1 -> Forall2 snap_le l l2 -> join_list l1 l2 = join_list l2 l1.
Proof.
  intros H1. revert l2. induction H1 as [|a b l l1 Hab H1 IH]; intros l2 H2;
    inversion H2 as [|? c ? l2' Hac H2']; subst; cbn; [reflexivity|].
  rewrite (IH l2' H2'). f_equal. unfold join_snap.
  destruct Hab as (T1 & K1 & _), Hac as (T2 & K2 & _).
  rewrite <- T1, <- T2, <- K1, <- K2, orb_comm. reflexivity.
Qed.

Lemma join_list_le l l1 l2 :
  Forall2 snap_le l l1 -> Forall2 snap_le l l2 ->
  Forall2 snap_le l1 (join_list l1 l2).
Proof.
  intros H1. revert l2. induction H1 as [|a b l l1 Hab H1 IH]; intros l2 H2;
    inversion H2 as [|? c ? l2' Hac H2']; subst; cbn; constructor.
  - repeat split. cbn. intros ->. reflexivity.
  - apply IH, H2'.
Qed.

Lemma join_list_flags l l1 l2 :
  Forall2 snap_le l l1 -> Forall2 snap_le l l2 ->
  map is_kept (join_list l1 l2)
  = map (fun ab => fst ab || snd ab) (combine (map is_kept l1) (map is_kept l2)).
Proof.
  intros H1. revert l2. induction H1 as [|a b l l1 Hab H1 IH]; intros l2 H2;
    inversion H2 as [|? c ? l2' Hac H2']; subst; cbn; [reflexivity|].
  rewrite (IH l2' H2'). reflexivity.
Qed.

Section Join.

Variable localoff : Z -> Z.

Lemma mark_loop_join fuel p : forall c c' e n r,
  sorted c = true -> mark_loop localoff fuel c p e n = Some r ->
  marks_le c c' ->
  mark_loop localoff fuel c' p e n = Some (join_marks c' r).
Proof.
  induction fuel as [|fuel IH]; intros c c' e n r S H L.
  - rewrite mark_loop_0 in *. rewrite <- (mark_guard_le c c' e n L).
    destruct (mark_guard c e n); [discriminate|]. injection H as <-.
    rewrite (join_absorb c c' L). reflexivity.
  - assert (S' : sorted c' = true) by (destruct L; congruence).
    rewrite mark_loop_step in * by assumption.
    rewrite <- (mark_guard_le c c' e n L).
    rewrite <- (find_oldest_le c c' _ _ L S).
    destruct (mark_guard c e n).
    + destruct (fst (find_oldest_in_window c (prev_period localoff p e) e)) as [i|].
      * rewrite (IH (keep_at i c) (keep_at i c') _ _ r S H (keep_at_mono i c c' L)).
        rewrite (join_keep i c c' r); [reflexivity| |exact L].
        apply (mark_loop_le localoff fuel (keep_at i c) p _ _ r S H).
      * apply (IH c); assumption.
    + injection H as <-. rewrite (join_absorb c c' L). reflexivity.
Qed.

(** X20. The marks of two periods do not interfere: when
    [mark_period(now, p1, n1)] and [mark_period(now, p2, n2)] each return on a
    collection, running one after the other returns, in either order, the
    same collection, in which a snapshot is kept exactly when one of the two
    calls alone keeps it. *)
Theorem mark_period_commute fuel c now p1 n1 p2 n2 r1 r2 :
  mark_period localoff fuel c now p1 n1 = Some r1 ->
  mark_period localoff fuel c now p2 n2 = Some r2 ->
  mark_period localoff fuel r1 now p2 n2 = Some (join_marks r1 r2)
  /\ mark_period localoff fuel r2 now p1 n1 = Some (join_marks r1 r2)
  /\ kept_flags (join_marks r1 r2)
     = map (fun ab => fst ab || snd ab) (combine (kept_flags r1) (kept_flags r2))
  /\ map ts (collection (join_marks r1 r2)) = map ts (collection r1).
Proof.
  unfold mark_period. intros H1 H2.
  pose proof (mark_loop_le localoff fuel _ p1 now n1 r1 (sorted_sort c) H1) as L1.
  pose proof (mark_loop_le localoff fuel _ p2 now n2 r2 (sorted_sort c) H2) as L2.
  assert (S1 : sorted r1 = true) by (destruct L1 as [S _]; rewrite <- S; apply sorted_sort).
  assert (S2 : sorted r2 = true) by (destruct L2 as [S _]; rewrite <- S; apply sorted_sort).
  rewrite (sort_sorted r1 S1), (sort_sorted r2 S2).
  assert (C : join_marks r2 r1 = join_marks r1 r2).
  { unfold join_marks. rewrite S1, S2. f_equal.
    destruct L1 as [_ F1], L2 as [_ F2]. apply (join_list_comm _ _ _ F2 F1). }
  split; [|split; [|split]].
  - apply (mark_loop_join fuel p2 (sort c) r1 now n2 r2 (sorted_sort c) H2 L1).
  - rewrite <- C.
    apply (mark_loop_join fuel p1 (sort c) r2 now n1 r1 (sorted_sort c) H1 L2).
  - unfold kept_flags, join_marks. cbn [collection].
    destruct L1 as [_ F1], L2 as [_ F2]. apply (join_list_flags _ _ _ F1 F2).
  - unfold join_marks. cbn [collection].
    destruct L1 as [_ F1], L2 as [_ F2].
    pose proof (join_list_le _ _ _ F1 F2) as J.
    clear - J. induction J as [|a b l l' (T & _) J IH]; cbn; [reflexivity|].
    rewrite IH, T. reflexivity.
Qed.

End Join.

Lemma mark_period_commute_witness :
  exists r1 r2,
    mark_period cet_2019 5
      (collection_of [ExistingSnapshot_init (plus0100 2019 12 26 15 2 42);
                      ExistingSnapshot_init (plus0100 2019 12 26 13 0 24);
                      ExistingSnapshot_init (plus0100 2019 12 25 11 3 32)])
      (utc 2019 12 26 16 30 0 0) hourly 1 = Some r1
    /\ mark_period cet_2019 5
         (collection_of [ExistingSnapshot_init (plus0100 2019 12 26 15 2 42);
                         ExistingSnapshot_init (plus0100 2019 12 26 13 0 24);
                         ExistingSnapshot_init (plus0100 2019 12 25 11 3 32)])
         (utc 2019 12 26 16 30 0 0) daily 1 = Some r2
    /\ mark_period cet_2019 5 r1 (utc 2019 12 26 16 30 0 0) daily 1
       = Some (join_marks r1 r2)
    /\ mark_period cet_2019 5 r2 (utc 2019 12 26 16 30 0 0) hourly 1
       = Some (join_marks r1 r2)
    /\ kept_flags r1 = [false; false; true]
    /\ kept_flags r2 = [false; true; false]
    /\ kept_flags (join_marks r1 r2) = [false; true; true].
Proof.
  eexists. eexists.
  split; [vm_compute; reflexivity|]. split; [vm_compute; reflexivity|].
  refine (match mark_period_commute cet_2019 5
                  (collection_of [ExistingSnapshot_init (plus0100 2019 12 26 15 2 42);
                                  ExistingSnapshot_init (plus0100 2019 12 26 13 0 24);
                                  ExistingSnapshot_init (plus0100 2019 12 25 11 3 32)])
                  (utc 2019 12 26 16 30 0 0) hourly 1 daily 1 _ _ _ _ with
          | conj A (conj B _) => conj A (conj B _)
          end).
  - vm_compute. reflexivity.
  - vm_compute. reflexivity.
  - vm_compute. repeat split.
Defined.

(** ** Only the keys are compared *)

Lemma bisect_loop_map f a x : forall fuel lo hi,
  (forall y, key (f y) = key y) ->
  bisect_loop fuel (map f a) x lo hi = bisect_loop fuel a x lo hi.
Proof.
  induction fuel as [|fuel IH]; intros lo hi K; cbn [bisect_loop]; [reflexivity|].
  destruct (lo <? hi)%nat; [|reflexivity].
  rewrite nth_error_map. destruct (nth_error a ((lo + hi) / 2)) as [s|]; cbn [option_map];
    [|reflexivity].
  unfold snap_lt. rewrite K. destruct (dt_ltb (key s) (key x)); apply IH, K.
Qed.

(** X21. Sorting and searching read nothing but the keys: if the records are
    changed in any way that keeps their keys (other timestamps, other marks),
    [find_oldest_in_window] returns the record at the same place. *)
Theorem find_oldest_in_window_key_only f snaps b e :
  (forall y, key (f y) = key y) ->
  find_oldest_snapshot (collection_of (map f snaps)) b e
  = option_map f (find_oldest_snapshot (collection_of snaps) b e).
Proof.
  intros K. unfold find_oldest_snapshot, find_oldest_in_window.
  rewrite !sort_collection_of_eq. cbn [collection]. cbv zeta.
  rewrite (sort_by_key_map f snaps K). unfold bisect_left.
  rewrite length_map, (bisect_loop_map f _ _ _ _ _ K).
  destruct (_ <=? _)%nat; [reflexivity|].
  rewrite nth_error_map.
  destruct (nth_error (sort_by_key snaps) _) as [s|] eqn:E; cbn [option_map];
    [|reflexivity].
  rewrite K. destruct (dt_ltb (key s) e); [|reflexivity].
  cbn [collection]. rewrite nth_error_map, E. reflexivity.
Qed.

Lemma find_oldest_in_window_key_only_witness :
  find_oldest_snapshot
    (collection_of
       (map keep [ExistingSnapshot_init (plus0100 2019 12 26 15 45 0);
                  ExistingSnapshot_init (plus0100 2019 12 26 15 10 0)]))
    (utc 2019 12 26 14 0 0 0) (utc 2019 12 26 15 0 0 0)
  = option_map keep
      (find_oldest_snapshot
         (collection_of [ExistingSnapshot_init (plus0100 2019 12 26 15 45 0);
                         ExistingSnapshot_init (plus0100 2019 12 26 15 10 0)])
         (utc 2019 12 26 14 0 0 0) (utc 2019 12 26 15 0 0 0)).
Proof.
  apply (find_oldest_in_window_key_only keep).
  intros y. reflexivity.
Defined.

(** ** A zone that changes its clock at midnight *)

Lemma find_oldest_fst_none c b e :
  find_oldest_snapshot c b e = None -> fst (find_oldest_in_window c b e) = None.
Proof.
  unfold find_oldest_snapshot, find_oldest_in_window. cbv zeta.
  destruct (_ <=? _)%nat; [reflexivity|].
  destruct (nth_error _ _) eqn:E; [|reflexivity].
  destruct (dt_ltb _ _); [|reflexivity]. cbn. rewrite E. discriminate.
Qed.

Lemma find_oldest_all_older snaps b e :
  (forall x, In x snaps -> key x = round_beginning_hour (ts x)) ->
  (forall x, In x snaps -> instant (ts x) < probe_key b) ->
  fst (find_oldest_in_window (sort (collection_of snaps)) b e) = None.
Proof.
  intros K O. rewrite find_oldest_in_window_sort. apply find_oldest_fst_none.
  pose proof (find_oldest_snapshot_collection_of snaps b e) as H.
  destruct (find_oldest_snapshot (collection_of snaps) b e) as [s|]; [|reflexivity].
  destruct H as (I & [R _] & _). rewrite <- probe_key_eq in R.
  pose proof (key_le_ts s (K s I)). specialize (O s I). lia.
Qed.

Lemma mark_guard_all_older snaps e n :
  snaps <> [] -> 0 < n ->
  (forall x, In x snaps -> instant (ts x) < instant e) ->
  mark_guard (sort (collection_of snaps)) e n = true.
Proof.
  intros N P O. rewrite sort_collection_of_eq. unfold mark_guard. cbn [collection].
  destruct (Z.gtb_spec n 0); [|lia]. cbn [andb].
  destruct (sort_by_key snaps) as [|first rest] eqn:E.
  - exfalso. apply N. apply Permutation_nil.
    rewrite <- E. apply sort_by_key_perm.
  - assert (I : In first snaps) by (apply sort_by_key_In; rewrite E; left; reflexivity).
    specialize (O first I). unfold dt_geb. apply Z.geb_le. lia.
Qed.

(** X22. In a zone where daylight saving begins at local midnight,
    [prev_day] returns its own argument at the first instant of the day of
    the change, and the loop of [mark_period] does not end: on that day, with
    any positive count and any snapshots all older than that instant, no
    number of iterations makes it return. *)
Theorem mark_period_midnight_change fuel snaps n :
  snaps <> [] -> 0 < n ->
  (forall x, In x snaps -> key x = round_beginning_hour (ts x)) ->
  (forall x, In x snaps -> instant (ts x) < utc_instant 2018 11 4 3 0 0 0) ->
  prev_day brt_2018 (utc 2018 11 4 3 0 0 0) = utc 2018 11 4 3 0 0 0
  /\ mark_period brt_2018 fuel (collection_of snaps) (utc 2018 11 4 15 0 0 0) daily n
     = None.
Proof.
  intros N P K O. split; [vm_compute; reflexivity|].
  assert (P1 : prev_period brt_2018 daily (utc 2018 11 4 15 0 0 0)
               = utc 2018 11 4 3 0 0 0) by (vm_compute; reflexivity).
  assert (P2 : prev_period brt_2018 daily (utc 2018 11 4 3 0 0 0)
               = utc 2018 11 4 3 0 0 0) by (vm_compute; reflexivity).
  assert (E0 : probe_key (utc 2018 11 4 3 0 0 0) = utc_instant 2018 11 4 3 0 0 0)
    by (vm_compute; reflexivity).
  assert (I0 : instant (utc 2018 11 4 3 0 0 0) = utc_instant 2018 11 4 3 0 0 0)
    by reflexivity.
  assert (I1 : utc_instant 2018 11 4 3 0 0 0 < instant (utc 2018 11 4 15 0 0 0))
    by (vm_compute; reflexivity).
  set (c := sort (collection_of snaps)).
  assert (S : sorted c = true) by apply sorted_sort.
  assert (F : forall e, fst (find_oldest_in_window c (utc 2018 11 4 3 0 0 0) e) = None).
  { intros e. apply find_oldest_all_older; [exact K|]. rewrite E0. exact O. }
  assert (G0 : mark_guard c (utc 2018 11 4 3 0 0 0) n = true).
  { apply mark_guard_all_older; [exact N|exact P|]. rewrite I0. exact O. }
  assert (G1 : mark_guard c (utc 2018 11 4 15 0 0 0) n = true).
  { apply mark_guard_all_older; [exact N|exact P|].
    intros x Hx. specialize (O x Hx). lia. }
  assert (L : forall k, mark_loop brt_2018 k c daily (utc 2018 11 4 3 0 0 0) n = None).
  { induction k as [|k IH].
    - rewrite mark_loop_0, G0. reflexivity.
    - rewrite (mark_loop_step brt_2018 k c daily _ n S), G0, P2, F. exact IH. }
  unfold mark_period. fold c. destruct fuel as [|fuel].
  - rewrite mark_loop_0, G1. reflexivity.
  - rewrite (mark_loop_step brt_2018 fuel c daily _ n S), G1, P1, F. apply L.
Qed.

Lemma mark_period_midnight_change_witness :
  prev_day brt_2018 (utc 2018 11 4 3 0 0 0) = utc 2018 11 4 3 0 0 0
  /\ mark_period brt_2018 1000
       (collection_of
          [ExistingSnapshot_init (mk_datetime 2018 11 1 9 0 0 0 (timedelta_hours (-3)))])
       (utc 2018 11 4 15 0 0 0) daily 7
     = None.
Proof.
  apply (mark_period_midnight_change 1000
           [ExistingSnapshot_init (mk_datetime 2018 11 1 9 0 0 0 (timedelta_hours (-3)))]
           7).
  - discriminate.
  - lia.
  - intros x [<-|[]]. reflexivity.
  - intros x [<-|[]]. vm_compute. reflexivity.
Defined.
